(** * bladwijzers: a command-line bookmark organiser

    Shallow embedding of [index.js] and of the second copy of the script
    that the repository holds, an earlier revision ([add <url>] with a
    mandatory argument, as in the README), and the properties of the
    bookmark store, the duplicate check of [add], the metadata fetcher and
    the [list] command.

    Conventions of the embedding

    - A bookmark is a record; the persisted configuration ([conf]) holds the
      key [items] or does not hold it: [option (list Item)].
    - Commands thread the configuration explicitly and collect what they
      write to the terminal in a list of [Line]s; the spinner of [add] and
      the colours of [output.info] and [output.err] are left out.
    - Answers typed at the interactive prompts are inputs of the commands
      (a [Session]); so is what the network does with the GET.
    - JavaScript objects used as dictionaries ([collections] in
      [listCommand]) are finite maps from their own keys to their values,
      together with the prototype where the program can change it (the key
      [__proto__]): which entries the object has is modelled, the order in
      which treeify walks them is not.
    - Third-party packages (normalize-url, crypto, valid-url, metascraper,
      lodash's truncate, colors, terminal-link, the WHATWG URL parser) are
      the fields of the class [Packages]: every theorem holds for whatever
      these packages compute.  The matcher of fuzzy and the one option of
      got the program sets are modelled ([Fuzzy], [Got]). *)

From Stdlib Require Import String Ascii List Bool Arith NArith Lia Permutation Sorted.
From Stdlib Require Import DecimalString.
From stdpp Require Import base option list gmap strings fin_maps.

Import ListNotations.
Local Open Scope string_scope.
Local Open Scope list_scope.
Local Open Scope nat_scope.

(** ** Data model *)

(** [{ hash, url, collection, title }] *)
Record Item := mkItem {
  hash : string;
  url : string;
  collection : string;
  title : option string          (* absent until [add] has asked for it *)
}.

(** What [fetchItemMeta] returns: [{ url }] or [{ url, ...meta }], where
    [meta] carries the only field the title rule of metascraper produces. *)
Record Meta := mkMeta {
  meta_url : string;
  meta_title : option string
}.

(** The configuration file: the value under the key ["items"], if any. *)
Definition Conf := option (list Item).

(** The object [listCommand] hands to treeify: label of a collection, then
    rendered title, then hyperlink. *)
Abbreviation LabelTree := (gmap string (gmap string string)).

(** Lines written to the terminal. *)
Inductive Line :=
| Info (text : string)      (* output.info(text): console.info(">".green, text.bold) *)
| Err (text : string)       (* output.err(text): console.error("x".red, text.bold) *)
| Log (text : string)       (* console.log(text) *)
| LogTree (t : LabelTree).  (* console.log(treeify.asTree(t, true)): the own properties *)

(** How a command ends. *)
Inductive Exit :=
| Done                        (* the async function returned *)
| Uncaught (reason : string)  (* a rejection nobody handles *)
| Hung.                       (* a prompt that is never answered validly *)

Record Run := mkRun {
  stored : Conf;              (* the configuration when the command ends *)
  printed : list Line;
  exit : Exit
}.

(** ** Third-party packages *)

Class Packages := {
  (** [require("normalize-url")] *)
  normalizeUrl : string -> string;
  (** [crypto.createHash("md5").update(s).digest("hex")] *)
  md5_hex : string -> string;
  (** truthiness of [validUrl.isUri(url)] *)
  isUri : string -> bool;
  (** [metascraper({ html, url })] with the title rule only:
      the scraped title, if one is found *)
  metascraper : string -> string -> option string;
  (** [_.truncate(s, { length: n })] *)
  truncate : string -> nat -> string;
  (** [new URL(u).hostname]; [None] when the constructor throws *)
  hostname : string -> option string;
  (** [terminalLink(text, url)] *)
  terminalLink : string -> string -> string;
  (** the getters of [require("colors")] *)
  green : string -> string;
  blue : string -> string;
  bold : string -> string
}.

(** ** The package fuzzy

    The source of the package is not part of the repository.  The model
    follows the matcher the package documents: [fuzzy.match] walks the
    candidate once, consuming the pattern in order and ignoring case; a run
    of consecutive hits scores more than linearly.  [fuzzy.filter] keeps the
    candidates that match and sorts them by score, higher first, ties by
    position in the input array. *)

Module Fuzzy.

Definition lower (c : ascii) : ascii :=
  let n := nat_of_ascii c in
  if (65 <=? n) && (n <=? 90) then ascii_of_nat (n + 32) else c.

Fixpoint toLowerCase (s : string) : string :=
  match s with
  | EmptyString => EmptyString
  | String c s' => String (lower c) (toLowerCase s')
  end.

(** A score is a number or [Infinity] (exact match). *)
Inductive Score := Finite (n : nat) | Infinity.

(** The [for] loop of [fuzzy.match] over what is left of [compareString]:
    [patternIdx], [currScore] and [totalScore] are the loop's variables. *)
Fixpoint scan (pattern rest : string) (patternIdx currScore totalScore : nat)
  : nat * nat :=
  match rest with
  | EmptyString => (patternIdx, totalScore)
  | String ch rest' =>
      if bool_decide (Some ch = String.get patternIdx pattern)
      then let currScore' := currScore + (1 + currScore) in
           scan pattern rest' (patternIdx + 1) currScore' (totalScore + currScore')
      else scan pattern rest' patternIdx 0 totalScore
  end.

(** Modelled from the spec: the matcher of the package fuzzy, which the
    repository does not hold ("approximate string matching ranking
    candidates by similarity to a query rather than requiring exact
    substring match").  [fuzzy.match(pattern, str)] without options:
    [None] is [null]; the rendered string is [str] itself, [pre] and [post]
    being empty; every character of the pattern has to be met, in order. *)
Definition match_ (pattern str : string) : option (string * Score) :=
  let compareString := toLowerCase str in
  let pattern := toLowerCase pattern in
  let '(patternIdx, totalScore) := scan pattern compareString 0 0 0 in
  if patternIdx =? String.length pattern
  then Some (str, if String.eqb compareString pattern
                  then Infinity else Finite totalScore)
  else None.

(** An element of the array [fuzzy.filter] returns. *)
Record Result := mkResult {
  string_ : string;      (* the field [string] *)
  score : Score;
  index : nat;
  original : string
}.

(** The [reduce] of [fuzzy.filter], [idx] being the index of the head. *)
Fixpoint collect (pattern : string) (idx : nat) (arr : list string) : list Result :=
  match arr with
  | [] => []
  | element :: arr' =>
      match match_ pattern element with
      | Some (rendered, sc) =>
          mkResult rendered sc idx element :: collect pattern (S idx) arr'
      | None => collect pattern (S idx) arr'
      end
  end.

Definition score_ltb (a b : Score) : bool :=
  match a, b with
  | Finite m, Finite n => m <? n
  | Finite _, Infinity => true
  | Infinity, _ => false
  end.

(** The comparator of the [sort]: [a] goes before [b] when
    [b.score - a.score] is negative, or is zero or [NaN] and
    [a.index - b.index] is negative. *)
Definition before (a b : Result) : bool :=
  score_ltb (score b) (score a)
  || (negb (score_ltb (score a) (score b)) && (index a <? index b)).

(** [Array.prototype.sort] with that comparator, as an insertion sort. *)
Fixpoint insert (a : Result) (l : list Result) : list Result :=
  match l with
  | [] => [a]
  | b :: l' => if before b a then b :: insert a l' else a :: l
  end.

Definition sort (l : list Result) : list Result := fold_right insert [] l.

(** Modelled from the spec: [fuzzy.filter(pattern, arr)] of the package
    fuzzy, which the repository does not hold, for a string [pattern]
    ("fuzzy-matched collection labels ranked by the matcher's scoring"). *)
Definition filter (pattern : string) (arr : list string) : list Result :=
  sort (collect pattern 0 arr).

End Fuzzy.

(** ** Promises, as far as [fetchItemMeta] needs them

    A promise never settles, or settles at some time (in milliseconds after
    it was created) by being fulfilled or rejected. *)

Inductive Outcome (A : Type) :=
| Fulfilled (value : A)
| Rejected (reason : string).
Arguments Fulfilled {A} value.
Arguments Rejected {A} reason.

Inductive Promise (A : Type) :=
| Pending
| SettlesAt (ms : N) (o : Outcome A).
Arguments Pending {A}.
Arguments SettlesAt {A} ms o.

(** [p.then(f)]: settled as [p] is, with [f] applied to the value.  The time
    kept is the one at which [p] settles; what [f] takes on top of it is
    not counted. *)
Definition then_ {A B : Type} (f : A -> B) (p : Promise A) : Promise B :=
  match p with
  | Pending => Pending
  | SettlesAt t (Fulfilled v) => SettlesAt t (Fulfilled (f v))
  | SettlesAt t (Rejected e) => SettlesAt t (Rejected e)
  end.

(** [Promise.race([p, q])]: the one that settles first decides; of two that
    settle in the same millisecond, the one listed first. *)
Definition race {A : Type} (p q : Promise A) : Promise A :=
  match p, q with
  | Pending, _ => q
  | _, Pending => p
  | SettlesAt tp _, SettlesAt tq _ => if (tp <=? tq)%N then p else q
  end.

(** [timeout(ms)] (index.js 22-23) resolves with [undefined] after [ms]. *)
Definition timeout (ms : N) : Promise unit := SettlesAt ms (Fulfilled tt).

(** ** The package got *)

Module Got.

Record Response := mkResponse {
  statusCode : nat;
  body : string
}.

Definition is2xx (r : Response) : bool :=
  (200 <=? statusCode r) && (statusCode r <=? 299).

(** Modelled from the spec: [got(url, { throwHttpErrors })] of the package
    got, which the repository does not hold ("Non-2xx HTTP responses are
    still passed to the title extractor (errors are not raised on HTTP
    failure status)").  [wire] is what the network does with the request:
    the promise settles when the exchange does, and a response with a
    failure status is a rejection only when [throwHttpErrors] is set. *)
Definition got (throwHttpErrors : bool) (wire : Promise Response)
  : Promise Response :=
  match wire with
  | SettlesAt t (Fulfilled r) =>
      if throwHttpErrors && negb (is2xx r)
      then SettlesAt t (Rejected "HTTPError")
      else wire
  | _ => wire
  end.

End Got.

(** ** Prompts

    inquirer asks again until [validate] accepts the value: [attempts] is
    what the user submits, in order. *)

Fixpoint prompt (validate : string -> bool) (attempts : list string) : option string :=
  match attempts with
  | [] => None
  | val :: later => if validate val then Some val else prompt validate later
  end.

(** What the user types during one command, and what the network does. *)
Record Session := mkSession {
  urlTyped : list string;            (* at "Enter your url" *)
  collectionTyped : list string;     (* at "Choose a new/existing collection" *)
  titleTyped : list string;          (* at "What should the title be?" *)
  wire : Promise Got.Response
}.

(** [s.replace(pat, rep)] with a string pattern: the first occurrence only. *)
Fixpoint replace (pat rep s : string) : string :=
  if String.prefix pat s
  then rep +:+ String.substring (String.length pat) (String.length s - String.length pat) s
  else match s with
       | EmptyString => EmptyString
       | String c s' => String c (replace pat rep s')
       end.

(** [_.uniq]: the first occurrence of every value, in order.  [uniqStep]
    is one turn of its loop: a value already in [result] is skipped. *)
Definition uniqStep (result : list string) (value : string) : list string :=
  if existsb (String.eqb value) result then result else result ++ [value].

Definition uniq (l : list string) : list string := fold_left uniqStep l [].

(** ** Plain objects with string values

    The labels of [collections] and the titles under a label are keys the
    stored bookmarks choose, so the key [__proto__] can occur.  On a plain
    object reading it gives the prototype, and writing it replaces the
    prototype (when the value written is an object) or does nothing (when
    it is a string), unless the object or an object on its prototype chain
    has a data property of that name.  A map of the model holds the own
    enumerable properties of an object; the empty map stands for
    [Object.prototype], which has none. *)

Definition protoKey : string := "__proto__".

(** The decimal spelling of an index. *)
Definition indexKey (i : nat) : string := NilEmpty.string_of_uint (Nat.to_uint i).

(** The own enumerable properties of a string: its characters, by index
    (a character of the model stands for a code unit of the string). *)
Fixpoint charsFrom (i : nat) (s : string) : gmap string string :=
  match s with
  | EmptyString => ∅
  | String c s' => <[indexKey i := String c EmptyString]> (charsFrom (S i) s')
  end.

Definition chars (s : string) : gmap string string := charsFrom 0 s.

(** What reading a property of [collections] can give: nothing that has
    an enumerable property ([undefined], a method of [Object.prototype]),
    a string, or an object with string values. *)
Inductive Value :=
| VUndefined
| VString (s : string)
| VObject (own : gmap string string).

(** [collections[key]]: an own property, else a property of the prototype
    the loop has installed, else what [Object.prototype] gives, where
    [__proto__] reads the prototype itself. *)
Definition getProperty (collections : LabelTree) (prototype : gmap string string)
    (key : string) : Value :=
  match collections !! key with
  | Some titles => VObject titles
  | None =>
      match prototype !! key with
      | Some link => VString link
      | None => if String.eqb key protoKey then VObject prototype else VUndefined
      end
  end.

(** The copying loop of [Object.assign]: every property of the source is
    set on the target, the source winning; setting [__proto__] to a string
    on a target that has no own property of that name does nothing. *)
Definition copyInto (target own : gmap string string) : gmap string string :=
  (if bool_decide (is_Some (target !! protoKey)) then own else delete protoKey own)
  ∪ target.

(** [Object.assign(target, source)] *)
Definition Object_assign (target : gmap string string) (source : Value)
  : gmap string string :=
  match source with
  | VUndefined => target
  | VString s => copyInto target (chars s)
  | VObject own => copyInto target own
  end.

Section Program.
Context {pkg : Packages}.

(** ** Hashing (index.js 37-41, identical in the earlier revision) *)

Definition hashUrl (u : string) : string := md5_hex (normalizeUrl u).

(** ** The store (index.js 44-79) *)

Definition getItems (conf : Conf) : list Item := default [] conf.

Definition saveItems (items : list Item) (conf : Conf) : Conf := Some items.

Definition getItem (u : string) (conf : Conf) : option Item :=
  let h := hashUrl u in
  List.find (fun x => String.eqb (hash x) h) (getItems conf).

Definition addItem (item : Item) (conf : Conf) : Conf :=
  let items := getItems conf in
  saveItems (items ++ [item]) conf.

Definition removeItem (item : Item) (conf : Conf) : Conf :=
  let items :=
    List.filter (fun x => negb (String.eqb (url x) (url item))) (getItems conf) in
  saveItems items conf.

Definition getCollections (conf : Conf) : list string :=
  uniq (map collection (getItems conf)).

Definition getCollectionItems (c : string) (conf : Conf) : list Item :=
  List.filter (fun x => String.eqb (collection x) c) (getItems conf).

(** [input] is [None] when the caller passes [undefined] or [null];
    [!input] holds for these and for the empty string. *)
Definition fuzzySearchCollections (input : option string) (conf : Conf)
  : list string :=
  match input with
  | None | Some "" => getCollections conf
  | Some input => map Fuzzy.string_ (Fuzzy.filter input (getCollections conf))
  end.

(** ** Building an item (index.js 81-96) *)

(** [{ hash, collection, ...meta }] *)
Definition createItem (meta : Meta) (c : string) : Item :=
  let hash := hashUrl (meta_url meta) in
  mkItem hash (meta_url meta) c (meta_title meta).

(** The promise [fetchItemMeta(url)] returns, [wire] being what the network
    does with the GET.  Its time is the one at which the race is decided:
    the scraping that follows a response takes time of its own, which is
    not counted. *)
Definition fetchItemMeta (u : string) (wire : Promise Got.Response) : Promise Meta :=
  let resp := race (then_ Some (Got.got false wire))
                   (then_ (fun _ => None) (timeout 5000%N)) in
  then_ (fun resp =>
           match resp with
           | None => mkMeta u None
           | Some r => mkMeta u (metascraper (Got.body r) u)
           end) resp.

(** ** Prompts of the commands (index.js 98-106, 137-163, 178-187) *)

Definition inputUrl (s : Session) : option string :=
  prompt (fun val => 0 <? String.length val) (urlTyped s).

Definition createCollectionStr : string := "create collection: ".

(** The [source] callback of the autocomplete prompt. *)
Definition choices (createNew : bool) (input : option string) (conf : Conf)
  : list string :=
  let currentInput := default "" input in
  let choices := fuzzySearchCollections input conf in
  if (0 <? String.length currentInput) && createNew
  then choices ++ [createCollectionStr +:+ currentInput]
  else choices.

Definition selectCollection (createNew : bool) (s : Session) (conf : Conf)
  : option string :=
  let validate val :=
    (0 <? String.length val)
    && (String.prefix createCollectionStr val
        || existsb (String.eqb val) (getCollections conf)) in
  replace createCollectionStr "" <$> prompt validate (collectionTyped s).

(** An empty submission stands for the default, when there is one. *)
Definition inputTitle (suggestedTitle : option string) (s : Session) : option string :=
  let submitted typed :=
    if String.eqb typed "" then default "" suggestedTitle else typed in
  prompt (fun input => 0 <? String.length input) (map submitted (titleTyped s)).

(** ** The [add] command (index.js 108-135)

    [arg] is the optional command-line argument. *)

(** [if (!url) url = await inputUrl()]: the URL the command works on. *)
Definition urlGiven (s : Session) (arg : option string) : option string :=
  match arg with
  | None | Some "" => inputUrl s
  | Some u => Some u
  end.

Definition addCommand (s : Session) (arg : option string) (conf : Conf) : Run :=
  match urlGiven s arg with
  | None => mkRun conf [] Hung
  | Some u =>
      if negb (isUri u) then
        mkRun conf [Err "The provided url is not valid"] Done
      else
        match getItem u conf with
        | Some existingItem =>
            mkRun conf
              [Err ("The provided url has already been added to "
                    +:+ collection existingItem)] Done
        | None =>
            match fetchItemMeta u (wire s), selectCollection true s conf with
            | Pending, _ => mkRun conf [] Hung
            | SettlesAt _ (Rejected reason), _ => mkRun conf [] (Uncaught reason)
            | SettlesAt _ (Fulfilled _), None => mkRun conf [] Hung
            | SettlesAt _ (Fulfilled meta), Some c =>
                let item := createItem meta c in
                match inputTitle (title item) s with
                | None => mkRun conf [] Hung
                | Some t =>
                    let item := mkItem (hash item) (url item) (collection item) (Some t) in
                    mkRun (addItem item conf)
                      [Info "Following item has been added!"] Done
                end
            end
        end
  end.

(** ** The [list] command (index.js 202-216) *)

(** [_.truncate(item.title, { length: 40 }).green]; lodash reads a missing
    title as the empty string. *)
Definition entryTitle (item : Item) : string :=
  green (truncate (default "" (title item)) 40).

(** [terminalLink((new URL(item.url).hostname + "/…").blue, item.url)] *)
Definition entryLink (item : Item) : option string :=
  match hostname (url item) with
  | None => None
  | Some host => Some (terminalLink (blue (host +:+ "/…")) (url item))
  end.

(** The body of the [for] loop, folded over the items that are left.
    [collections] holds the own properties of the object and [prototype]
    those of its prototype.  The assignment [collections[key] = value]
    makes [value] the prototype when [key] is [__proto__] and neither the
    object nor its prototype has a property of that name; in every other
    case it sets an own property.  What is printed is the tree of the own
    properties: treeify leaves out what an object inherits. *)
Fixpoint group (items : list Item) (collections : LabelTree)
    (prototype : gmap string string) : option LabelTree :=
  match items with
  | [] => Some collections
  | item :: items' =>
      match entryLink item with
      | None => None
      | Some link =>
          let key := collection item in
          let value :=
            Object_assign {[entryTitle item := link]}
                          (getProperty collections prototype key) in
          match collections !! key, prototype !! key with
          | None, None =>
              if String.eqb key protoKey
              then group items' collections value
              else group items' (<[key := value]> collections) prototype
          | _, _ => group items' (<[key := value]> collections) prototype
          end
      end
  end.

Definition listCommand (conf : Conf) : Run :=
  match group (getItems conf) ∅ ∅ with
  | Some collections =>
      mkRun conf [Log (bold "collections"); LogTree collections] Done
  | None => mkRun conf [] (Uncaught "TypeError [ERR_INVALID_URL]: Invalid URL")
  end.

End Program.

(** ** The earlier revision of the script

    The second copy of the script differs from index.js, in what is
    modelled here, in [removeItem], [createItem], [selectCollection] and the
    second half of [addCommand] (it has no [fetchItemMeta] and no
    [inputUrl]).  [hashUrl], the rest of the store and [listCommand] are
    the same text, modelled by the definitions above. *)

Module Earlier.
Section Program.
Context {pkg : Packages}.

Definition removeItem (item : Item) (conf : Conf) : Conf :=
  let items :=
    List.filter (fun x => String.eqb (url x) (url item)) (getItems conf) in
  saveItems items conf.

(** [{ hash, url, collection, ...meta }], after an unguarded GET. *)
Definition createItem (u c : string) (wire : Promise Got.Response) : Promise Item :=
  then_ (fun r =>
           let meta := metascraper (Got.body r) u in
           let hash := hashUrl u in
           mkItem hash u c meta)
        (Got.got false wire).

Definition selectCollection (s : Session) : option string :=
  replace createCollectionStr ""
    <$> prompt (fun val => 0 <? String.length val) (collectionTyped s).

(** [add <url>]: the argument is mandatory. *)
Definition addCommand (s : Session) (u : string) (conf : Conf) : Run :=
  if negb (isUri u) then
    mkRun conf [Err "The provided url is not valid"] Done
  else
    match getItem u conf with
    | Some existingItem =>
        mkRun conf
          [Err ("The provided url has already been added to "
                +:+ collection existingItem)] Done
    | None =>
        match selectCollection s with
        | None => mkRun conf [] Hung
        | Some c =>
            match createItem u c (wire s) with
            | Pending => mkRun conf [] Hung
            | SettlesAt _ (Rejected reason) => mkRun conf [] (Uncaught reason)
            | SettlesAt _ (Fulfilled item) =>
                match inputTitle (title item) s with
                | None => mkRun conf [] Hung
                | Some t =>
                    let item := mkItem (hash item) (url item) (collection item) (Some t) in
                    mkRun (addItem item conf)
                      [Info "Following item has been added!"] Done
                end
            end
        end
    end.

End Program.
End Earlier.

(** ** Vocabulary of the statements *)

(** The run that refuses a duplicate: one error line naming the collection,
    the configuration as it was. *)
Definition refusal (conf : Conf) (c : string) : Run :=
  mkRun conf [Err ("The provided url has already been added to " +:+ c)] Done.

(** [p] has not settled [d] milliseconds after its creation. *)
Definition settlesAfter {A : Type} (d : N) (p : Promise A) : Prop :=
  match p with
  | Pending => True
  | SettlesAt t _ => (d < t)%N
  end.

(** [a] does not have to come after [b]. *)
Definition notAfter (a b : Fuzzy.Result) : Prop := Fuzzy.before b a = false.

(** No element scores lower than one that comes later. *)
Definition ranked (rs : list Fuzzy.Result) : Prop :=
  StronglySorted
    (fun a b => Fuzzy.score_ltb (Fuzzy.score a) (Fuzzy.score b) = false) rs.

(** The hyperlink shown under label [c] and title [t], if any. *)
Definition shown (collections : LabelTree) (c t : string) : option string :=
  match collections !! c with
  | Some titles => titles !! t
  | None => None
  end.

Section Entries.
Context {pkg : Packages}.



End Entries.

(** ** Stand-ins for the packages, to run the program on examples

    [MD5] is the digest itself (RFC 1321).  The other stand-ins implement the
    part of each package the examples exercise: normalize-url supplies a
    missing protocol and drops a trailing slash, valid-url requires a URI
    scheme, metascraper reads the title element, lodash truncates with an
    ellipsis, terminal-link falls back to text followed by the address in
    parentheses, and colors is switched off. *)

Module MD5.

Local Open Scope N_scope.

Definition mask32 : N := 0xffffffff.
Definition add32 (x y : N) : N := N.land (x + y) mask32.
Definition not32 (x : N) : N := N.lxor x mask32.
Definition rotl32 (x : N) (c : N) : N :=
  N.lor (N.land (N.shiftl x c) mask32) (N.shiftr x (32 - c)).

Definition K : list N :=
  [ 0xd76aa478; 0xe8c7b756; 0x242070db; 0xc1bdceee;
    0xf57c0faf; 0x4787c62a; 0xa8304613; 0xfd469501;
    0x698098d8; 0x8b44f7af; 0xffff5bb1; 0x895cd7be;
    0x6b901122; 0xfd987193; 0xa679438e; 0x49b40821;
    0xf61e2562; 0xc040b340; 0x265e5a51; 0xe9b6c7aa;
    0xd62f105d; 0x02441453; 0xd8a1e681; 0xe7d3fbc8;
    0x21e1cde6; 0xc33707d6; 0xf4d50d87; 0x455a14ed;
    0xa9e3e905; 0xfcefa3f8; 0x676f02d9; 0x8d2a4c8a;
    0xfffa3942; 0x8771f681; 0x6d9d6122; 0xfde5380c;
    0xa4beea44; 0x4bdecfa9; 0xf6bb4b60; 0xbebfbc70;
    0x289b7ec6; 0xeaa127fa; 0xd4ef3085; 0x04881d05;
    0xd9d4d039; 0xe6db99e5; 0x1fa27cf8; 0xc4ac5665;
    0xf4292244; 0x432aff97; 0xab9423a7; 0xfc93a039;
    0x655b59c3; 0x8f0ccc92; 0xffeff47d; 0x85845dd1;
    0x6fa87e4f; 0xfe2ce6e0; 0xa3014314; 0x4e0811a1;
    0xf7537e82; 0xbd3af235; 0x2ad7d2bb; 0xeb86d391 ].

Definition shifts : list N :=
  [ 7; 12; 17; 22; 7; 12; 17; 22; 7; 12; 17; 22; 7; 12; 17; 22;
    5; 9; 14; 20; 5; 9; 14; 20; 5; 9; 14; 20; 5; 9; 14; 20;
    4; 11; 16; 23; 4; 11; 16; 23; 4; 11; 16; 23; 4; 11; 16; 23;
    6; 10; 15; 21; 6; 10; 15; 21; 6; 10; 15; 21; 6; 10; 15; 21 ].

Fixpoint bytes (s : string) : list N :=
  match s with
  | EmptyString => []
  | String c s' => N_of_ascii c :: bytes s'
  end.

(** The [n] low bytes of [x], least significant first. *)
Fixpoint le_bytes (n : nat) (x : N) : list N :=
  match n with
  | O => []
  | S n' => N.land x 0xff :: le_bytes n' (N.shiftr x 8)
  end.

Definition pad (msg : list N) : list N :=
  let len := List.length msg in
  let zeros := ((64 + 55 - len mod 64) mod 64)%nat in
  msg ++ [0x80] ++ repeat 0 zeros ++ le_bytes 8 (8 * N.of_nat len).

Fixpoint words (n : nat) (bs : list N) : list N :=
  match n, bs with
  | S n', b0 :: b1 :: b2 :: b3 :: bs' =>
      (b0 + N.shiftl b1 8 + N.shiftl b2 16 + N.shiftl b3 24) :: words n' bs'
  | _, _ => []
  end.

Definition round (M : list N) (st : N * N * N * N) (i : nat) : N * N * N * N :=
  let '(A, B, C, D) := st in
  let '(F, g) :=
    if (i <? 16)%nat then (N.lor (N.land B C) (N.land (not32 B) D), i)
    else if (i <? 32)%nat then
      (N.lor (N.land D B) (N.land (not32 D) C), ((5 * i + 1) mod 16)%nat)
    else if (i <? 48)%nat then
      (N.lxor (N.lxor B C) D, ((3 * i + 5) mod 16)%nat)
    else (N.lxor C (N.lor B (not32 D)), ((7 * i) mod 16)%nat) in
  let F := add32 (add32 (add32 F A) (nth i K 0)) (nth g M 0) in
  (D, add32 B (rotl32 F (nth i shifts 0)), B, C).

Fixpoint blocks (n : nat) (bs : list N) (st : N * N * N * N) : N * N * N * N :=
  match n with
  | O => st
  | S n' =>
      let M := words 16 bs in
      let '(a0, b0, c0, d0) := st in
      let '(A, B, C, D) := fold_left (round M) (seq 0 64) st in
      blocks n' (skipn 64 bs) (add32 a0 A, add32 b0 B, add32 c0 C, add32 d0 D)
  end.

Definition hexdigit (n : N) : ascii :=
  ascii_of_N (if n <? 10 then 48 + n else 87 + n).

Fixpoint hex (bs : list N) : string :=
  match bs with
  | [] => EmptyString
  | b :: bs' => String (hexdigit (N.shiftr b 4)) (String (hexdigit (N.land b 0xf)) (hex bs'))
  end.

Definition digest_hex (s : string) : string :=
  let bs := pad (bytes s) in
  let '(a, b, c, d) :=
    blocks (List.length bs / 64) bs (0x67452301, 0xefcdab89, 0x98badcfe, 0x10325476) in
  hex (le_bytes 4 a ++ le_bytes 4 b ++ le_bytes 4 c ++ le_bytes 4 d).

End MD5.

Module Node.

Fixpoint contains (pat s : string) : bool :=
  String.prefix pat s
  || match s with
     | EmptyString => false
     | String _ s' => contains pat s'
     end.

Definition dropTrailingSlash (s : string) : string :=
  match String.get (String.length s - 1) s with
  | Some "/"%char => String.substring 0 (String.length s - 1) s
  | _ => s
  end.

Definition normalizeUrl (u : string) : string :=
  dropTrailingSlash (if contains "://" u then u else "http://" +:+ u).

(** The text before the first colon, unless a slash, a question mark or
    a hash comes first. *)
Fixpoint scheme (s : string) : option string :=
  match s with
  | EmptyString => None
  | String c s' =>
      if Ascii.eqb c ":" then Some ""
      else if Ascii.eqb c "/" || Ascii.eqb c "?" || Ascii.eqb c "#" then None
      else String c <$> scheme s'
  end.

Definition isLetter (c : ascii) : bool :=
  let n := nat_of_ascii (Fuzzy.lower c) in (97 <=? n) && (n <=? 122).

Definition isSchemeChar (c : ascii) : bool :=
  let n := nat_of_ascii c in
  isLetter c || ((48 <=? n) && (n <=? 57))
  || Ascii.eqb c "+" || Ascii.eqb c "-" || Ascii.eqb c ".".

Definition isUri (u : string) : bool :=
  match scheme u with
  | Some (String c rest) =>
      isLetter c && forallb isSchemeChar (list_ascii_of_string rest)
  | _ => false
  end.

Definition after (i : nat) (s : string) : string :=
  String.substring i (String.length s - i) s.

Definition metascraper (html _ : string) : option string :=
  match String.index 0 "<title>" html with
  | Some i =>
      let rest := after (i + 7) html in
      match String.index 0 "</title>" rest with
      | Some j => Some (String.substring 0 j rest)
      | None => None
      end
  | None => None
  end.

Definition truncate (s : string) (n : nat) : string :=
  if String.length s <=? n then s
  else String.substring 0 (n - 3) s +:+ "...".

Fixpoint authority (s : string) : string :=
  match s with
  | EmptyString => EmptyString
  | String c s' =>
      if Ascii.eqb c "/" || Ascii.eqb c "?" || Ascii.eqb c "#" then EmptyString
      else String c (authority s')
  end.

Definition hostname (u : string) : option string :=
  match scheme u, String.index 0 "://" u with
  | Some _, Some i => Some (authority (after (i + 3) u))
  | Some _, None => Some ""
  | None, _ => None
  end.

Definition terminalLink (text u : string) : string :=
  text +:+ " (" +:+ u +:+ ")".

End Node.

Definition node : Packages := {|
  normalizeUrl := Node.normalizeUrl;
  md5_hex := MD5.digest_hex;
  isUri := Node.isUri;
  metascraper := Node.metascraper;
  truncate := Node.truncate;
  hostname := Node.hostname;
  terminalLink := Node.terminalLink;
  green := id;
  blue := id;
  bold := id
|}.

(** ** Example stores *)

Definition workItem : Item :=
  mkItem "a9b9f04336ce0181a08e774e01113b31" "http://example.com" "work"
         (Some "Example Domain").

Definition funItem : Item :=
  mkItem "2dcba437c78d8eae6092bc1ea24cba6d" "https://xkcd.com" "fun"
         (Some "xkcd").

Definition mirrorItem : Item :=
  mkItem "a9b9f04336ce0181a08e774e01113b31" "http://example.com" "fun"
         (Some "Example Domain (mirror)").

Definition strayItem : Item :=
  mkItem "7e572564680125e22a3a289bbe4ec71e" "https://nowhere.example" "work"
         None.

Definition longTitleItem : Item :=
  mkItem "c984d06aafbecf6bc55569f964148ea3" "https://example.com" "work"
         (Some "A very long page title that goes on and on, part one").






(** Sessions for the examples: the user creates the collection "reading"
    and types a title; the server does not answer. *)
Definition readingSession : Session :=
  mkSession [] ["create collection: reading"] ["Example"] Pending.

(** ** Choosing an item, [remove] and [open] (index.js 165-176, 189-200)

    The same text in both copies of the script, up to the [removeItem] and
    the [selectCollection] each copy calls; the one of index.js is modelled.
    [k] is the position, in the list the prompt shows, of the choice the
    user confirms. *)

(** [choices.indexOf(answer)]; [None] is [-1]. *)
Fixpoint indexOf (answer : option string) (choices : list (option string))
  : option nat :=
  match choices with
  | [] => None
  | choice :: rest =>
      if bool_decide (choice = answer) then Some 0
      else S <$> indexOf answer rest
  end.

(** How [selectItem] ends. *)
Inductive Selection :=
| PromptThrows                    (* inquirer throws on a choice that is [undefined] *)
| NotAnswered                     (* the list has no choice in position [k] *)
| Returned (item : option Item).  (* [items[i]]; [None] is [undefined] *)

(** The list prompt is built from the titles; a bookmark without a title
    is the choice [undefined], on which inquirer throws a [TypeError]
    before anything is shown. *)
Definition selectItem (c : string) (k : nat) (conf : Conf) : Selection :=
  let items := getCollectionItems c conf in
  let choices := map title items in
  if existsb (fun choice => negb (bool_decide (is_Some choice))) choices
  then PromptThrows
  else
    match choices !! k with
    | None => NotAnswered
    | Some answer =>
        Returned (match indexOf answer choices with
                  | Some i => items !! i
                  | None => None
                  end)
    end.

Definition removeCommand (s : Session) (k : nat) (conf : Conf) : Run :=
  match selectCollection false s conf with
  | None => mkRun conf [] Hung
  | Some c =>
      match selectItem c k conf with
      | PromptThrows =>
          mkRun conf [] (Uncaught "TypeError: Cannot read property 'type' of undefined")
      | NotAnswered => mkRun conf [] Hung
      | Returned None =>
          mkRun conf [] (Uncaught "TypeError: Cannot read property 'url' of undefined")
      | Returned (Some item) =>
          mkRun (removeItem item conf) [Info "Bookmark removed!"] Done
      end
  end.

(** The run, and the address handed to [opn], if the command gets there. *)
Definition openCommand (s : Session) (k : nat) (conf : Conf) : Run * option string :=
  match selectCollection false s conf with
  | None => (mkRun conf [] Hung, None)
  | Some c =>
      match selectItem c k conf with
      | PromptThrows =>
          (mkRun conf [] (Uncaught "TypeError: Cannot read property 'type' of undefined"),
           None)
      | NotAnswered => (mkRun conf [] Hung, None)
      | Returned None =>
          (mkRun conf [] (Uncaught "TypeError: Cannot read property 'url' of undefined"),
           None)
      | Returned (Some item) => (mkRun conf [] Done, Some (url item))
      end
  end.

(** ** More vocabulary *)

(** Every bookmark of the collection has a title. *)
Definition titled (c : string) (conf : Conf) : Prop :=
  forall x, In x (getCollectionItems c conf) -> is_Some (title x).

(** [pat] occurs in [s]. *)
Fixpoint occursIn (pat s : string) : bool :=
  String.prefix pat s
  || match s with
     | EmptyString => false
     | String _ s' => occursIn pat s'
     end.

Section Invariant.
Context {pkg : Packages}.

(** The stored hashes are pairwise distinct, and each is the hash of the
    url stored with it. *)
Definition wellFormed (conf : Conf) : Prop :=
  NoDup (map hash (getItems conf))
  /\ forall x, In x (getItems conf) -> hash x = hashUrl (url x).

End Invariant.

(** Two bookmarks of one collection with one title, and a session that
    picks the existing collection "work". *)
Definition twinItem : Item :=
  mkItem "5564fd6a95028f02e52b38bb1743c816" "https://example.org" "work"
         (Some "Example Domain").

Definition workSession : Session := mkSession [] ["work"] [] Pending.

(** The user leaves the title prompt empty; the page answers in 120 ms. *)
Definition quickSession : Session :=
  mkSession [] ["create collection: reading"] [""]
            (SettlesAt 120%N
               (Fulfilled (Got.mkResponse 200 "<html><title>Example Domain</title></html>"))).

(** The user first leaves the title prompt empty, then types a title; the
    page takes nine seconds to answer. *)
Definition slowSession : Session :=
  mkSession [] ["create collection: reading"] [""; "My own title"]
            (SettlesAt 9000%N
               (Fulfilled (Got.mkResponse 200 "<html><title>Example Domain</title></html>"))).

(** The connection is refused after 30 ms. *)
Definition refusedSession : Session :=
  mkSession [] ["create collection: reading"] ["Example"]
            (SettlesAt 30%N (Rejected "RequestError: connect ECONNREFUSED")).

(** * Properties *)

(** ** The stand-ins at work *)

(** The digest on the test suite of RFC 1321. *)
Example md5_test_suite :
  MD5.digest_hex "" = "d41d8cd98f00b204e9800998ecf8427e"
  /\ MD5.digest_hex "abc" = "900150983cd24fb0d6963f7d28e17f72"
  /\ MD5.digest_hex "message digest" = "f96b697d7cb7938d525a2f31aaf161d0".
Proof. repeat split; vm_compute; reflexivity. Qed.

(** The store is empty, the user adds https://example.com to a new
    collection "reading" and nothing comes back from the server within five
    seconds: the bookmark is stored with the title the user typed. *)
Example add_without_answer :
  @addCommand node readingSession (Some "https://example.com") None
  = mkRun (Some [mkItem "c984d06aafbecf6bc55569f964148ea3" "https://example.com"
                        "reading" (Some "Example")])
          [Info "Following item has been added!"] Done.
Proof. vm_compute. reflexivity. Qed.

(** The tree of a store with two collections, entry by entry. *)
Example list_two_collections :
  exists collections,
    @listCommand node (Some [workItem; funItem])
    = mkRun (Some [workItem; funItem])
            [Log "collections"; LogTree collections] Done
    /\ dom collections = {["work"; "fun"]}
    /\ shown collections "work" "Example Domain"
       = Some "example.com/… (http://example.com)"
    /\ shown collections "fun" "xkcd" = Some "xkcd.com/… (https://xkcd.com)"
    /\ shown collections "fun" "Example Domain" = None
    /\ shown collections "work" "xkcd" = None.
Proof.
  eexists. split; [reflexivity|].
  repeat split; vm_compute; reflexivity.
Qed.

(** ** Lists *)

Lemma existsb_eqb_In (v : string) (l : list string) :
  existsb (String.eqb v) l = true <-> In v l.
Proof.
  rewrite existsb_exists. split.
  - intros [x [Hin Heq]]. apply String.eqb_eq in Heq. now subst.
  - intros Hin. exists v. split; [assumption | apply String.eqb_refl].
Qed.

Lemma uniq_fold_In (l acc : list string) (x : string) :
  In x (fold_left uniqStep l acc) <-> In x acc \/ In x l.
Proof.
  revert acc. induction l as [|v l IH]; intros acc; simpl.
  - tauto.
  - rewrite IH. unfold uniqStep.
    destruct (existsb (String.eqb v) acc) eqn:E.
    + apply existsb_eqb_In in E. split; [tauto|].
      intros [?|[->|?]]; tauto.
    + rewrite in_app_iff. simpl. tauto.
Qed.

Lemma uniq_fold_NoDup (l acc : list string) :
  NoDup acc -> NoDup (fold_left uniqStep l acc).
Proof.
  revert acc. induction l as [|v l IH]; intros acc Hacc; simpl.
  - assumption.
  - apply IH. unfold uniqStep.
    destruct (existsb (String.eqb v) acc) eqn:E; [assumption|].
    apply NoDup_app. split; [assumption|]. split; [|apply NoDup_singleton].
    intros y Hy Hv. apply list_elem_of_In in Hy. apply list_elem_of_In in Hv.
    destruct Hv as [<-|[]].
    apply existsb_eqb_In in Hy. congruence.
Qed.

Lemma uniq_In (l : list string) (x : string) : In x (uniq l) <-> In x l.
Proof. unfold uniq. rewrite uniq_fold_In. simpl. tauto. Qed.

Lemma uniq_NoDup (l : list string) : NoDup (uniq l).
Proof. apply uniq_fold_NoDup. constructor. Qed.

(** ** The store *)

Lemma getItems_saveItems (items : list Item) (conf : Conf) :
  getItems (saveItems items conf) = items.
Proof. reflexivity. Qed.

Lemma removeItem_getItems (item : Item) (conf : Conf) :
  getItems (removeItem item conf)
  = List.filter (fun x => negb (String.eqb (url x) (url item))) (getItems conf).
Proof. reflexivity. Qed.

Lemma removeItem_In (item x : Item) (conf : Conf) :
  In x (getItems (removeItem item conf))
  <-> In x (getItems conf) /\ url x <> url item.
Proof.
  rewrite removeItem_getItems, filter_In, negb_true_iff, String.eqb_neq.
  reflexivity.
Qed.

Lemma filter_all {A : Type} (f : A -> bool) (l : list A) :
  (forall x, In x l -> f x = true) -> List.filter f l = l.
Proof.
  induction l as [|a l IH]; intros Hall; simpl.
  - reflexivity.
  - rewrite (Hall a (or_introl eq_refl)). f_equal.
    apply IH. intros x Hx. apply Hall. now right.
Qed.

Lemma filter_none {A : Type} (f : A -> bool) (l : list A) :
  (forall x, In x l -> f x = false) -> List.filter f l = [].
Proof.
  induction l as [|a l IH]; intros Hnone; simpl.
  - reflexivity.
  - rewrite (Hnone a (or_introl eq_refl)).
    apply IH. intros x Hx. apply Hnone. now right.
Qed.


(** index.js: removing an item whose url no stored item has changes
    nothing. *)
Theorem removeItem_unknown_url (item : Item) (conf : Conf) :
  (forall x, In x (getItems conf) -> url x <> url item) ->
  getItems (removeItem item conf) = getItems conf.
Proof.
  intros Hfresh. rewrite removeItem_getItems. apply filter_all.
  intros x Hx. apply negb_true_iff, String.eqb_neq. now apply Hfresh.
Qed.

(** The earlier revision keeps what index.js deletes. *)
Lemma earlier_removeItem_In (item x : Item) (conf : Conf) :
  In x (getItems (Earlier.removeItem item conf))
  <-> In x (getItems conf) /\ url x = url item.
Proof.
  unfold Earlier.removeItem. rewrite getItems_saveItems, filter_In, String.eqb_eq.
  reflexivity.
Qed.

Lemma earlier_removeItem_unknown_url (item : Item) (conf : Conf) :
  (forall x, In x (getItems conf) -> url x <> url item) ->
  getItems (Earlier.removeItem item conf) = [].
Proof.
  intros Hfresh. unfold Earlier.removeItem. rewrite getItems_saveItems.
  apply filter_none. intros x Hx. apply String.eqb_neq. now apply Hfresh.
Qed.

(** C1. In the earlier revision, [removeItem] applied to a stored item
    persists that item alone: on the store holding the "work" bookmark and
    the "fun" bookmark, removing the first leaves the first and deletes the
    second, the opposite of deleting exactly the selected item. *)
Theorem earlier_removeItem_keeps_selected_only :
  Earlier.removeItem workItem (Some [workItem; funItem]) = Some [workItem]
  /\ In workItem (getItems (Earlier.removeItem workItem (Some [workItem; funItem])))
  /\ ~ In funItem (getItems (Earlier.removeItem workItem (Some [workItem; funItem]))).
Proof.
  split; [reflexivity|]. split.
  - apply earlier_removeItem_In. simpl. tauto.
  - rewrite earlier_removeItem_In. intros [_ Hurl]. discriminate Hurl.
Qed.

(** C8. index.js: when two stored items have the same url under different
    collections, removing either one deletes both, whatever their hashes;
    the items with another url all stay. *)
Theorem removeItem_same_url_deletes_both (a b : Item) (conf : Conf) :
  In a (getItems conf) -> In b (getItems conf) ->
  url a = url b -> collection a <> collection b ->
  forall picked, picked = a \/ picked = b ->
    ~ In a (getItems (removeItem picked conf))
    /\ ~ In b (getItems (removeItem picked conf))
    /\ (forall x, In x (getItems conf) -> url x <> url a ->
                  In x (getItems (removeItem picked conf))).
Proof.
  intros Ha Hb Hurl _ picked Hpicked.
  assert (Hp : url picked = url a) by (destruct Hpicked; subst; congruence).
  repeat split.
  - rewrite removeItem_In. intros [_ Hne]. congruence.
  - rewrite removeItem_In. intros [_ Hne]. congruence.
  - intros x Hx Hne. apply removeItem_In. split; [assumption | congruence].
Qed.

Lemma removeItem_same_url_deletes_both_witness :
  let conf := Some [workItem; funItem; mirrorItem] in
  ~ In workItem (getItems (removeItem mirrorItem conf))
  /\ ~ In mirrorItem (getItems (removeItem mirrorItem conf))
  /\ (forall x, In x (getItems conf) -> url x <> url workItem ->
                In x (getItems (removeItem mirrorItem conf))).
Proof.
  intros conf.
  apply (removeItem_same_url_deletes_both workItem mirrorItem conf).
  - simpl. tauto.
  - simpl. tauto.
  - reflexivity.
  - discriminate.
  - now right.
Defined.

(** C9. In the earlier revision, removing an item whose url no stored item
    has empties the store: from the two bookmarks above nothing is left. *)
Theorem earlier_removeItem_unknown_url_empties :
  (forall x, In x [workItem; funItem] -> url x <> url strayItem)
  /\ Earlier.removeItem strayItem (Some [workItem; funItem]) = Some [].
Proof.
  split; [|reflexivity].
  intros x [<-|[<-|[]]]; discriminate.
Qed.

(** ** Hashing and the duplicate check *)

Section Duplicates.
Context {pkg : Packages}.

(** C3. URLs that normalize identically have the same hash. *)
Theorem hashUrl_of_equal_normal_forms (a b : string) :
  normalizeUrl a = normalizeUrl b -> hashUrl a = hashUrl b.
Proof. intros Hnorm. unfold hashUrl. now rewrite Hnorm. Qed.

Lemma getItem_Some (u : string) (conf : Conf) (it : Item) :
  getItem u conf = Some it ->
  exists before after,
    getItems conf = before ++ it :: after
    /\ hash it = hashUrl u
    /\ (forall x, In x before -> hash x <> hashUrl u).
Proof.
  unfold getItem. induction (getItems conf) as [|a l IH]; simpl; [discriminate|].
  destruct (String.eqb (hash a) (hashUrl u)) eqn:E.
  - intros [= ->]. exists [], l. apply String.eqb_eq in E. simpl. tauto.
  - intros Hfind. destruct (IH Hfind) as (before & after & -> & Hh & Hfirst).
    exists (a :: before), after. apply String.eqb_neq in E.
    repeat split; [assumption|]. intros x [<-|Hx]; auto.
Qed.

Lemma getItem_None (u : string) (conf : Conf) :
  getItem u conf = None ->
  forall x, In x (getItems conf) -> hash x <> hashUrl u.
Proof.
  unfold getItem. intros Hfind x Hx.
  apply String.eqb_neq. exact (find_none _ _ Hfind x Hx).
Qed.

Lemma getItem_finds (u : string) (conf : Conf) (it : Item) :
  In it (getItems conf) -> hash it = hashUrl u ->
  exists existing, getItem u conf = Some existing.
Proof.
  intros Hin Hhash. destruct (getItem u conf) as [e|] eqn:E; [eauto|].
  exfalso. exact (getItem_None u conf E it Hin Hhash).
Qed.

Lemma getItem_after_addItem (u : string) (conf : Conf) (item : Item) :
  getItem u conf = None -> hash item = hashUrl u ->
  getItem u (addItem item conf) = Some item.
Proof.
  unfold getItem, addItem. rewrite getItems_saveItems.
  induction (getItems conf) as [|a l IH]; simpl; intros Hnone Hhash.
  - rewrite Hhash, String.eqb_refl. reflexivity.
  - destruct (String.eqb (hash a) (hashUrl u)); [discriminate|]. now apply IH.
Qed.

Lemma fetchItemMeta_url (u : string) (w : Promise Got.Response) (t : N) (m : Meta) :
  fetchItemMeta u w = SettlesAt t (Fulfilled m) -> meta_url m = u.
Proof.
  unfold fetchItemMeta.
  destruct (race _ _) as [|t' [[r|]|e]]; simpl; intros [= _ <-]; reflexivity.
Qed.

(** What a run of [add] that reports success has done. *)
Lemma addCommand_success (s : Session) (arg : option string) (conf : Conf) :
  printed (addCommand s arg conf) = [Info "Following item has been added!"] ->
  exists u c t,
    urlGiven s arg = Some u
    /\ getItem u conf = None
    /\ selectCollection true s conf = Some c
    /\ stored (addCommand s arg conf)
       = addItem (mkItem (hashUrl u) u c (Some t)) conf.
Proof.
  unfold addCommand.
  destruct (urlGiven s arg) as [u|]; [|discriminate].
  destruct (isUri u); [|discriminate]. simpl negb. cbv iota.
  destruct (getItem u conf) as [e|] eqn:Eget; [discriminate|].
  destruct (fetchItemMeta u (wire s)) as [|tm [meta|reason]] eqn:Efetch;
    [discriminate| |discriminate].
  destruct (selectCollection true s conf) as [c|]; [|discriminate].
  destruct (inputTitle _ s) as [t|]; [|discriminate].
  intros _. exists u, c, t. apply fetchItemMeta_url in Efetch.
  simpl. unfold createItem. rewrite Efetch. auto.
Qed.

End Duplicates.

(** ** The [add] command on a URL that is already stored *)

Section AddCommand.
Context {pkg : Packages}.

(** C2, amended. When the URL passes [validUrl.isUri] and its hash is the
    hash of a stored item, [add] prints the error naming the collection of
    the stored item with that hash (the first one in the list, should
    several share it) and leaves the configuration as it was; so does the
    earlier revision. *)
Theorem addCommand_refuses_stored_url
    (s : Session) (arg : option string) (u : string) (conf : Conf) (it : Item) :
  urlGiven s arg = Some u ->
  isUri u = true ->
  In it (getItems conf) ->
  hash it = hashUrl u ->
  exists existing before after,
    getItems conf = before ++ existing :: after
    /\ hash existing = hashUrl u
    /\ (forall x, In x before -> hash x <> hashUrl u)
    /\ addCommand s arg conf = refusal conf (collection existing)
    /\ Earlier.addCommand s u conf = refusal conf (collection existing)
    /\ stored (addCommand s arg conf) = conf
    /\ ((forall x, In x (getItems conf) -> hash x = hash it -> x = it) ->
        existing = it).
Proof.
  intros Hurl Hvalid Hin Hhash.
  destruct (getItem_finds u conf it Hin Hhash) as [existing Hget].
  destruct (getItem_Some u conf existing Hget) as (before & after & Hsplit & Hh & Hfirst).
  exists existing, before, after.
  assert (Hrun : addCommand s arg conf = refusal conf (collection existing)).
  { unfold addCommand. now rewrite Hurl, Hvalid, Hget. }
  repeat split; try assumption.
  - unfold Earlier.addCommand. now rewrite Hvalid, Hget.
  - now rewrite Hrun.
  - intros Huniq. apply Huniq; [|congruence].
    rewrite Hsplit. apply in_elt.
Qed.

(** A URL that fails [validUrl.isUri] is turned away before the store is
    looked at. *)
Lemma addCommand_invalid_url
    (s : Session) (arg : option string) (u : string) (conf : Conf) :
  urlGiven s arg = Some u -> isUri u = false ->
  addCommand s arg conf = mkRun conf [Err "The provided url is not valid"] Done.
Proof. intros Hurl Hinvalid. unfold addCommand. now rewrite Hurl, Hinvalid. Qed.

(** C5. After an [add] of a URL that reported success, an [add] of the URL
    that differs from it by a trailing slash only, which normalize-url maps
    to the same normal form and valid-url accepts, is refused as a duplicate
    of the first, under the collection chosen then; the store keeps the
    state the first call left. *)
Theorem addCommand_twice_trailing_slash
    (s1 s2 : Session) (arg1 arg2 : option string) (u1 u2 : string) (conf : Conf) :
  urlGiven s1 arg1 = Some u1 ->
  urlGiven s2 arg2 = Some u2 ->
  u2 = u1 +:+ "/" \/ u1 = u2 +:+ "/" ->
  normalizeUrl u1 = normalizeUrl u2 ->
  isUri u2 = true ->
  printed (addCommand s1 arg1 conf) = [Info "Following item has been added!"] ->
  exists c,
    selectCollection true s1 conf = Some c
    /\ addCommand s2 arg2 (stored (addCommand s1 arg1 conf))
       = refusal (stored (addCommand s1 arg1 conf)) c.
Proof.
  intros Hurl1 Hurl2 _ Hnorm Hvalid Hok.
  destruct (addCommand_success s1 arg1 conf Hok) as (u & c & t & Hu & Hnone & Hc & Hstored).
  rewrite Hurl1 in Hu. injection Hu as <-.
  exists c. split; [assumption|].
  rewrite Hstored. unfold addCommand. rewrite Hurl2, Hvalid. simpl negb. cbv iota.
  assert (Hh : hashUrl u1 = hashUrl u2) by (unfold hashUrl; now rewrite Hnorm).
  rewrite (getItem_after_addItem u2 conf (mkItem (hashUrl u1) u1 c (Some t))).
  - reflexivity.
  - unfold getItem in *. now rewrite <- Hh.
  - exact Hh.
Qed.

End AddCommand.

Lemma hashUrl_of_equal_normal_forms_witness :
  @normalizeUrl node "https://example.com/" = @normalizeUrl node "https://example.com"
  /\ @hashUrl node "https://example.com/" = @hashUrl node "https://example.com".
Proof.
  split; [reflexivity|].
  apply (@hashUrl_of_equal_normal_forms node). reflexivity.
Defined.

(** C2 as stated fails: "example.com" has the normal form, hence the hash,
    of the stored bookmark http://example.com, but it is not a URI for
    valid-url, and [add] reports an invalid url without naming "work". *)
Lemma addCommand_invalid_url_hides_duplicate :
  let conf := Some [workItem] in
  let run := @addCommand node readingSession (Some "example.com") conf in
  In workItem (getItems conf)
  /\ hash workItem = @hashUrl node "example.com"
  /\ run = mkRun conf [Err "The provided url is not valid"] Done
  /\ run <> refusal conf (collection workItem).
Proof.
  intros conf run.
  assert (Hrun : run = mkRun conf [Err "The provided url is not valid"] Done)
    by (vm_compute; reflexivity).
  split; [simpl; tauto|].
  split; [vm_compute; reflexivity|].
  split; [exact Hrun|].
  rewrite Hrun. discriminate.
Qed.

Lemma addCommand_refuses_stored_url_witness :
  let conf := Some [funItem; workItem] in
  exists existing before after,
    getItems conf = before ++ existing :: after
    /\ hash existing = @hashUrl node "http://example.com/"
    /\ (forall x, In x before -> hash x <> @hashUrl node "http://example.com/")
    /\ @addCommand node readingSession (Some "http://example.com/") conf
       = refusal conf (collection existing)
    /\ @Earlier.addCommand node readingSession "http://example.com/" conf
       = refusal conf (collection existing)
    /\ stored (@addCommand node readingSession (Some "http://example.com/") conf) = conf
    /\ ((forall x, In x (getItems conf) -> hash x = hash workItem -> x = workItem) ->
        existing = workItem).
Proof.
  intros conf.
  apply (@addCommand_refuses_stored_url node readingSession
           (Some "http://example.com/") "http://example.com/" conf workItem).
  - reflexivity.
  - reflexivity.
  - simpl. tauto.
  - vm_compute. reflexivity.
Defined.

Lemma addCommand_twice_trailing_slash_witness :
  let first := @addCommand node readingSession (Some "https://example.com") None in
  exists c,
    selectCollection true readingSession None = Some c
    /\ @addCommand node readingSession (Some "https://example.com/") (stored first)
       = refusal (stored first) c.
Proof.
  intros first.
  apply (@addCommand_twice_trailing_slash node readingSession readingSession
           (Some "https://example.com") (Some "https://example.com/")
           "https://example.com" "https://example.com/" None).
  - reflexivity.
  - reflexivity.
  - left. reflexivity.
  - reflexivity.
  - reflexivity.
  - vm_compute. reflexivity.
Defined.

(** ** The metadata fetcher *)

Section Fetch.
Context {pkg : Packages}.
Local Open Scope N_scope.

Lemma fetchItemMeta_timeout_first (u : string) (late : Promise Got.Response) :
  settlesAfter 5000 late ->
  fetchItemMeta u late = SettlesAt 5000 (Fulfilled (mkMeta u None)).
Proof.
  unfold fetchItemMeta, timeout.
  destruct late as [|t [r|e]]; simpl; try reflexivity; intros Hlate.
  - destruct (Got.is2xx r); simpl;
      destruct (N.leb_spec t 5000); try lia; reflexivity.
  - destruct (N.leb_spec t 5000); try lia; reflexivity.
Qed.

Lemma fetchItemMeta_response_first (u : string) (t : N) (r : Got.Response) :
  t < 5000 ->
  fetchItemMeta u (SettlesAt t (Fulfilled r))
  = SettlesAt t (Fulfilled (mkMeta u (metascraper (Got.body r) u))).
Proof.
  intros Hearly. unfold fetchItemMeta, timeout. simpl.
  destruct (N.leb_spec t 5000); [reflexivity | lia].
Qed.

(** C4. If the 5000 ms timeout settles before the GET does ([late]), the
    promise of [fetchItemMeta] is fulfilled with the record holding the url
    and no title.  If the GET is answered first ([t < 5000]) with a
    response [r], the promise is fulfilled, not rejected, with the url and
    the title metascraper finds in the body of [r], whatever the status
    code of [r] is. *)
Theorem fetchItemMeta_race
    (u : string) (late : Promise Got.Response) (t : N) (r : Got.Response) :
  settlesAfter 5000 late ->
  t < 5000 ->
  fetchItemMeta u late = SettlesAt 5000 (Fulfilled (mkMeta u None))
  /\ fetchItemMeta u (SettlesAt t (Fulfilled r))
     = SettlesAt t (Fulfilled (mkMeta u (metascraper (Got.body r) u)))
  /\ forall code,
       fetchItemMeta u (SettlesAt t (Fulfilled (Got.mkResponse code (Got.body r))))
       = fetchItemMeta u (SettlesAt t (Fulfilled r)).
Proof.
  intros Hlate Hearly.
  split; [now apply fetchItemMeta_timeout_first|].
  split; [now apply fetchItemMeta_response_first|].
  intros code. now rewrite !fetchItemMeta_response_first.
Qed.

End Fetch.

Lemma fetchItemMeta_race_witness :
  let u := "https://example.com/missing" in
  let late := SettlesAt 8000%N (Fulfilled (Got.mkResponse 200 "<title>Late</title>")) in
  let notFound := Got.mkResponse 404 "<title>Not Found</title>" in
  @fetchItemMeta node u late = SettlesAt 5000%N (Fulfilled (mkMeta u None))
  /\ @fetchItemMeta node u (SettlesAt 120%N (Fulfilled notFound))
     = SettlesAt 120%N (Fulfilled (mkMeta u (@metascraper node (Got.body notFound) u)))
  /\ forall code,
       @fetchItemMeta node u
         (SettlesAt 120%N (Fulfilled (Got.mkResponse code (Got.body notFound))))
       = @fetchItemMeta node u (SettlesAt 120%N (Fulfilled notFound)).
Proof.
  intros u late notFound.
  apply (@fetchItemMeta_race node u late 120%N notFound).
  - simpl. lia.
  - lia.
Defined.

(** ** Fuzzy search over the collections *)

Ltac order_cases :=
  unfold notAfter, Fuzzy.before, Fuzzy.score_ltb in *;
  repeat match goal with
         | r : Fuzzy.Result |- _ => destruct r as [? [?|] ? ?]
         end;
  simpl in *;
  repeat match goal with
         | |- context [?a <? ?b] => destruct (Nat.ltb_spec a b)
         | H : context [?a <? ?b] |- _ => destruct (Nat.ltb_spec a b)
         end;
  simpl in *; try discriminate; try reflexivity; try lia.

Lemma notAfter_trans (a b c : Fuzzy.Result) :
  notAfter a b -> notAfter b c -> notAfter a c.
Proof. intros Hab Hbc. order_cases. Qed.

Lemma before_notAfter (a b : Fuzzy.Result) :
  Fuzzy.before a b = true -> notAfter a b.
Proof. intros Hab. order_cases. Qed.

Lemma notAfter_score (a b : Fuzzy.Result) :
  notAfter a b -> Fuzzy.score_ltb (Fuzzy.score a) (Fuzzy.score b) = false.
Proof. intros Hab. order_cases. Qed.

Lemma fuzzy_insert_perm (a : Fuzzy.Result) (l : list Fuzzy.Result) :
  Permutation (Fuzzy.insert a l) (a :: l).
Proof.
  induction l as [|b l IH]; simpl.
  - reflexivity.
  - destruct (Fuzzy.before b a); [|reflexivity].
    rewrite IH. apply perm_swap.
Qed.

Lemma fuzzy_insert_sorted (a : Fuzzy.Result) (l : list Fuzzy.Result) :
  StronglySorted notAfter l -> StronglySorted notAfter (Fuzzy.insert a l).
Proof.
  induction 1 as [|b l Hsorted IH Hb]; simpl.
  - repeat constructor.
  - destruct (Fuzzy.before b a) eqn:E.
    + constructor; [assumption|].
      rewrite List.Forall_forall in *. intros x Hx.
      apply (Permutation_in _ (fuzzy_insert_perm a l)) in Hx.
      destruct Hx as [<-|Hx]; [now apply before_notAfter | now apply Hb].
    + constructor; [now constructor|].
      constructor; [exact E|].
      rewrite List.Forall_forall in *. intros x Hx.
      apply notAfter_trans with b; [exact E | now apply Hb].
Qed.

Lemma fuzzy_sort_perm (l : list Fuzzy.Result) : Permutation (Fuzzy.sort l) l.
Proof.
  induction l as [|a l IH]; simpl.
  - reflexivity.
  - rewrite fuzzy_insert_perm. now constructor.
Qed.

Lemma fuzzy_sort_sorted (l : list Fuzzy.Result) :
  StronglySorted notAfter (Fuzzy.sort l).
Proof.
  induction l as [|a l IH]; simpl.
  - constructor.
  - now apply fuzzy_insert_sorted.
Qed.

Lemma StronglySorted_weaken {A : Type} (R R' : A -> A -> Prop) (l : list A) :
  (forall a b, R a b -> R' a b) -> StronglySorted R l -> StronglySorted R' l.
Proof.
  intros Himp. induction 1 as [|a l Hsorted IH Ha]; constructor.
  - assumption.
  - rewrite List.Forall_forall in *. auto.
Qed.

Lemma fuzzy_match_rendered (pattern str s : string) (sc : Fuzzy.Score) :
  Fuzzy.match_ pattern str = Some (s, sc) -> s = str.
Proof.
  unfold Fuzzy.match_.
  destruct (Fuzzy.scan _ _ 0 0 0) as [patternIdx totalScore].
  destruct (patternIdx =? _); [|discriminate].
  now intros [= <- _].
Qed.

Lemma fuzzy_collect_sound (pattern : string) (arr : list string) (idx : nat)
    (r : Fuzzy.Result) :
  In r (Fuzzy.collect pattern idx arr) ->
  In (Fuzzy.string_ r) arr
  /\ Fuzzy.match_ pattern (Fuzzy.string_ r) = Some (Fuzzy.string_ r, Fuzzy.score r).
Proof.
  revert idx. induction arr as [|element arr IH]; intros idx; simpl; [tauto|].
  destruct (Fuzzy.match_ pattern element) as [[rendered sc]|] eqn:E.
  - intros [<-|Hin]; simpl.
    + pose proof (fuzzy_match_rendered _ _ _ _ E) as ->. tauto.
    + destruct (IH _ Hin). tauto.
  - intros Hin. destruct (IH _ Hin). tauto.
Qed.

Lemma fuzzy_collect_complete (pattern : string) (arr : list string) (idx : nat)
    (c : string) :
  In c arr -> is_Some (Fuzzy.match_ pattern c) ->
  exists r, In r (Fuzzy.collect pattern idx arr) /\ Fuzzy.string_ r = c.
Proof.
  revert idx. induction arr as [|element arr IH]; intros idx; simpl; [tauto|].
  intros [->|Hin] Hmatch.
  - destruct Hmatch as [[rendered sc] E]. rewrite E.
    exists (Fuzzy.mkResult rendered sc idx c). split; [now left|].
    simpl. now apply fuzzy_match_rendered in E.
  - destruct (IH (S idx) Hin Hmatch) as (r & Hr & Hs).
    exists r. split; [|assumption].
    destruct (Fuzzy.match_ pattern element) as [[rendered sc]|]; [now right | assumption].
Qed.

Lemma fuzzy_filter_In (pattern : string) (arr : list string) (c : string) :
  In c (map Fuzzy.string_ (Fuzzy.filter pattern arr))
  <-> In c arr /\ is_Some (Fuzzy.match_ pattern c).
Proof.
  unfold Fuzzy.filter. rewrite in_map_iff. split.
  - intros (r & <- & Hr).
    apply (Permutation_in _ (fuzzy_sort_perm _)) in Hr.
    apply fuzzy_collect_sound in Hr as [Hin Hm]. split; [assumption | eauto].
  - intros [Hin Hm].
    destruct (fuzzy_collect_complete pattern arr 0 c Hin Hm) as (r & Hr & Hs).
    exists r. split; [assumption|].
    apply (Permutation_in _ (Permutation_sym (fuzzy_sort_perm _))). assumption.
Qed.

Lemma fuzzy_filter_ranked (pattern : string) (arr : list string) :
  ranked (Fuzzy.filter pattern arr).
Proof.
  unfold ranked, Fuzzy.filter.
  apply StronglySorted_weaken with notAfter; [apply notAfter_score|].
  apply fuzzy_sort_sorted.
Qed.

Lemma getCollections_In (conf : Conf) (c : string) :
  In c (getCollections conf)
  <-> exists it, In it (getItems conf) /\ collection it = c.
Proof.
  unfold getCollections. rewrite uniq_In, in_map_iff.
  split; intros (it & H1 & H2); exists it; tauto.
Qed.

Lemma fuzzySearchCollections_nonempty (input : string) (conf : Conf) :
  input <> "" ->
  fuzzySearchCollections (Some input) conf
  = map Fuzzy.string_ (Fuzzy.filter input (getCollections conf)).
Proof. intros Hne. destruct input; [contradiction | reflexivity]. Qed.

(** C6. Without input ([undefined] or the empty string)
    [fuzzySearchCollections] returns [getCollections]: every collection
    label of the store, each once.  With a non-empty input it returns the
    labels fuzzy matches, no others, in the order of [fuzzy.filter]: no
    label before one that scores higher.  On a store whose collections are
    work and fun, the input zzz gives the empty list. *)
Theorem fuzzySearchCollections_spec (conf twoLabels : Conf) (input : string) :
  input <> "" ->
  getCollections twoLabels = ["work"; "fun"] ->
  (fuzzySearchCollections None conf = getCollections conf
   /\ fuzzySearchCollections (Some "") conf = getCollections conf
   /\ NoDup (getCollections conf)
   /\ forall c, In c (getCollections conf)
                <-> exists it, In it (getItems conf) /\ collection it = c)
  /\ (forall c, In c (fuzzySearchCollections (Some input) conf)
                <-> In c (getCollections conf)
                    /\ is_Some (Fuzzy.match_ input c))
  /\ (exists rs,
        fuzzySearchCollections (Some input) conf = map Fuzzy.string_ rs
        /\ ranked rs
        /\ Forall (fun r => Fuzzy.match_ input (Fuzzy.string_ r)
                            = Some (Fuzzy.string_ r, Fuzzy.score r)) rs)
  /\ fuzzySearchCollections (Some "zzz") twoLabels = [].
Proof.
  intros Hinput Htwo.
  split; [|split; [|split]].
  - split; [reflexivity|]. split; [reflexivity|].
    split; [apply uniq_NoDup | apply getCollections_In].
  - intros c. rewrite fuzzySearchCollections_nonempty by assumption.
    apply fuzzy_filter_In.
  - exists (Fuzzy.filter input (getCollections conf)).
    split; [now apply fuzzySearchCollections_nonempty|].
    split; [apply fuzzy_filter_ranked|].
    apply List.Forall_forall. intros r Hr. unfold Fuzzy.filter in Hr.
    apply (Permutation_in _ (fuzzy_sort_perm _)) in Hr.
    now apply fuzzy_collect_sound in Hr.
  - unfold fuzzySearchCollections. rewrite Htwo. reflexivity.
Qed.

Lemma fuzzySearchCollections_spec_witness :
  let conf := Some [workItem; funItem; strayItem] in
  "wo" <> ""
  /\ getCollections conf = ["work"; "fun"]
  /\ fuzzySearchCollections (Some "wo") conf = ["work"]
  /\ (forall c, In c (fuzzySearchCollections (Some "wo") conf)
                <-> In c (getCollections conf)
                    /\ is_Some (Fuzzy.match_ "wo" c))
  /\ fuzzySearchCollections (Some "zzz") conf = [].
Proof.
  intros conf.
  split; [discriminate|]. split; [reflexivity|]. split; [reflexivity|].
  pose proof (fuzzySearchCollections_spec conf conf "wo") as Hspec.
  destruct Hspec as (_ & Hmatched & _ & Hzzz); [discriminate | reflexivity |].
  split; [exact Hmatched | exact Hzzz].
Defined.

(** ** The [list] command *)

Section ListCommand.
Context {pkg : Packages}.














End ListCommand.





(** * More properties of the program *)

(** ** Prompts *)

Lemma prompt_Some (validate : string -> bool) (attempts : list string) (v : string) :
  prompt validate attempts = Some v ->
  exists refused later,
    attempts = refused ++ v :: later
    /\ validate v = true
    /\ forall x, In x refused -> validate x = false.
Proof.
  induction attempts as [|a attempts IH]; simpl; [discriminate|].
  destruct (validate a) eqn:E.
  - intros [= ->]. exists [], attempts. simpl. tauto.
  - intros Hp. destruct (IH Hp) as (refused & later & -> & Hv & Hr).
    exists (a :: refused), later. repeat split; [assumption|].
    intros x [<-|Hx]; auto.
Qed.

Lemma length_pos_nonempty (v : string) : (0 <? String.length v) = true -> v <> "".
Proof. intros Hlen ->. discriminate Hlen. Qed.

Lemma inputTitle_nonempty (suggestedTitle : option string) (s : Session) (t : string) :
  inputTitle suggestedTitle s = Some t -> t <> "".
Proof.
  unfold inputTitle. intros Hp.
  apply prompt_Some in Hp as (_ & _ & _ & Hv & _).
  now apply length_pos_nonempty.
Qed.

(** ** What [add] does to the store *)

Section AddToStore.
Context {pkg : Packages}.

(** The runs of [add]: the store untouched and no success line, or one
    item appended for a valid url no stored hash matches. *)
Lemma addCommand_runs (s : Session) (arg : option string) (conf : Conf) :
  (stored (addCommand s arg conf) = conf
   /\ printed (addCommand s arg conf) <> [Info "Following item has been added!"])
  \/ exists u c t,
       urlGiven s arg = Some u
       /\ isUri u = true
       /\ getItem u conf = None
       /\ selectCollection true s conf = Some c
       /\ t <> ""
       /\ addCommand s arg conf
          = mkRun (addItem (mkItem (hashUrl u) u c (Some t)) conf)
                  [Info "Following item has been added!"] Done.
Proof.
  unfold addCommand.
  destruct (urlGiven s arg) as [u|]; [|left; split; [reflexivity | discriminate]].
  destruct (isUri u) eqn:Evalid; simpl negb; cbv iota;
    [|left; split; [reflexivity | discriminate]].
  destruct (getItem u conf) as [e|] eqn:Eget;
    [left; split; [reflexivity | discriminate]|].
  destruct (fetchItemMeta u (wire s)) as [|tm [meta|reason]] eqn:Efetch;
    try (left; split; [reflexivity | discriminate]).
  destruct (selectCollection true s conf) as [c|];
    [|left; split; [reflexivity | discriminate]].
  destruct (inputTitle _ s) as [t|] eqn:Etitle;
    [|left; split; [reflexivity | discriminate]].
  right. exists u, c, t. apply fetchItemMeta_url in Efetch.
  apply inputTitle_nonempty in Etitle.
  simpl. unfold createItem. rewrite Efetch. auto 10.
Qed.

Lemma NoDup_map_app_fresh {A B : Type} (f : A -> B) (l : list A) (a : A) :
  NoDup (map f l) -> (forall x, In x l -> f x <> f a) ->
  NoDup (map f (l ++ [a])).
Proof.
  intros Hnd Hfresh. rewrite map_app. simpl.
  apply NoDup_app. split; [assumption|]. split; [|apply NoDup_singleton].
  intros y Hy Hin. apply list_elem_of_In in Hy, Hin.
  destruct Hin as [<-|[]].
  apply in_map_iff in Hy as (x & Hfx & Hx). exact (Hfresh x Hx Hfx).
Qed.

Lemma wellFormed_addItem (u c : string) (t : option string) (conf : Conf) :
  wellFormed conf -> getItem u conf = None ->
  wellFormed (addItem (mkItem (hashUrl u) u c t) conf).
Proof.
  intros [Hnd Hhash] Hnone. unfold wellFormed.
  change (getItems (addItem (mkItem (hashUrl u) u c t) conf))
    with (getItems conf ++ [mkItem (hashUrl u) u c t]).
  split.
  - apply NoDup_map_app_fresh; [assumption|].
    intros x Hx. simpl. exact (getItem_None u conf Hnone x Hx).
  - intros x Hx. apply in_app_iff in Hx as [Hx|[<-|[]]]; [now apply Hhash | reflexivity].
Qed.

Lemma NoDup_map_filter {A B : Type} (f : A -> B) (p : A -> bool) (l : list A) :
  NoDup (map f l) -> NoDup (map f (List.filter p l)).
Proof.
  induction l as [|a l IH]; simpl; [trivial|].
  intros Hnd. apply NoDup_cons in Hnd as [Hnotin Hnd].
  destruct (p a); simpl; [|now apply IH].
  apply NoDup_cons. split; [|now apply IH].
  intros Hin. apply Hnotin.
  apply list_elem_of_In in Hin. apply list_elem_of_In.
  apply in_map_iff in Hin as (x & Hfx & Hx).
  apply filter_In in Hx as [Hx _]. apply in_map_iff. eauto.
Qed.

Lemma NoDup_map_eq {A B : Type} (f : A -> B) (l : list A) (a b : A) :
  NoDup (map f l) -> In a l -> In b l -> f a = f b -> a = b.
Proof.
  induction l as [|x l IH]; simpl; [tauto|].
  intros Hnd Ha Hb Hf. apply NoDup_cons in Hnd as [Hnotin Hnd].
  assert (Hmem : forall y, In y l -> f y <> f x).
  { intros y Hy Heq. apply Hnotin. apply list_elem_of_In.
    apply in_map_iff. eauto. }
  destruct Ha as [<-|Ha], Hb as [<-|Hb]; try reflexivity.
  - exfalso. exact (Hmem b Hb (eq_sym Hf)).
  - exfalso. exact (Hmem a Ha Hf).
  - now apply IH.
Qed.

(** Whatever the user types and the network does, [add] leaves the stored
    bookmarks as they are, in their order, and writes only when it reports
    success: then one bookmark is appended, its url was matched by no
    stored hash, its hash is the hash of its url and its title is not
    empty. *)
Theorem addCommand_only_appends (s : Session) (arg : option string) (conf : Conf) :
  (stored (addCommand s arg conf) = conf
   /\ printed (addCommand s arg conf) <> [Info "Following item has been added!"])
  \/ exists item t,
       getItems (stored (addCommand s arg conf)) = getItems conf ++ [item]
       /\ printed (addCommand s arg conf) = [Info "Following item has been added!"]
       /\ exit (addCommand s arg conf) = Done
       /\ getItem (url item) conf = None
       /\ hash item = hashUrl (url item)
       /\ title item = Some t /\ t <> "".
Proof.
  destruct (addCommand_runs s arg conf)
    as [Hsame|(u & c & t & _ & _ & Hnew & _ & Ht & Hrun)]; [now left|].
  right. exists (mkItem (hashUrl u) u c (Some t)), t.
  rewrite Hrun. simpl. auto 10.
Qed.

(** After an [add] that reports success, looking the url up finds the new
    bookmark: the url as given, the collection chosen, a title. *)
Theorem addCommand_then_getItem
    (s : Session) (arg : option string) (u : string) (conf : Conf) :
  urlGiven s arg = Some u ->
  printed (addCommand s arg conf) = [Info "Following item has been added!"] ->
  exists c t,
    selectCollection true s conf = Some c
    /\ getItem u (stored (addCommand s arg conf))
       = Some (mkItem (hashUrl u) u c (Some t)).
Proof.
  intros Hurl Hok.
  destruct (addCommand_runs s arg conf)
    as [[_ Hno]|(u' & c & t & Hu & _ & Hnew & Hc & _ & Hrun)]; [contradiction|].
  rewrite Hurl in Hu. injection Hu as <-.
  exists c, t. split; [assumption|].
  rewrite Hrun. simpl. now apply getItem_after_addItem.
Qed.

(** [add] keeps the store well formed, however the run ends. *)
Theorem addCommand_keeps_wellFormed (s : Session) (arg : option string) (conf : Conf) :
  wellFormed conf -> wellFormed (stored (addCommand s arg conf)).
Proof.
  intros Hwf.
  destruct (addCommand_runs s arg conf)
    as [[-> _]|(u & c & t & _ & _ & Hnew & _ & _ & ->)]; [assumption|].
  simpl. now apply wellFormed_addItem.
Qed.

(** [removeItem] keeps the store well formed. *)
Theorem removeItem_keeps_wellFormed (item : Item) (conf : Conf) :
  wellFormed conf -> wellFormed (removeItem item conf).
Proof.
  intros [Hnd Hhash]. unfold wellFormed. rewrite removeItem_getItems. split.
  - now apply NoDup_map_filter.
  - intros x Hx. apply filter_In in Hx as [Hx _]. now apply Hhash.
Qed.

Lemma wellFormed_urls_differ (conf : Conf) (x y : Item) :
  wellFormed conf -> In x (getItems conf) -> In y (getItems conf) ->
  url x = url y -> x = y.
Proof.
  intros [Hnd Hhash] Hx Hy Hurl.
  apply (NoDup_map_eq hash (getItems conf)); try assumption.
  rewrite (Hhash x Hx), (Hhash y Hy). now rewrite Hurl.
Qed.

Lemma wellFormed_removeItem_split
    (item : Item) (conf : Conf) (before after : list Item) :
  wellFormed conf ->
  getItems conf = before ++ item :: after ->
  getItems (removeItem item conf) = before ++ after.
Proof.
  intros Hwf Hsplit. rewrite removeItem_getItems.
  assert (Hother : forall x, In x before \/ In x after ->
            negb (String.eqb (url x) (url item)) = true).
  { intros x Hx. apply negb_true_iff, String.eqb_neq. intros Hurl.
    assert (Hin : In x (getItems conf))
      by (rewrite Hsplit; apply in_app_iff; simpl; tauto).
    assert (Hitem : In item (getItems conf)) by (rewrite Hsplit; apply in_elt).
    pose proof (wellFormed_urls_differ conf x item Hwf Hin Hitem Hurl) as ->.
    destruct Hwf as [Hnd _]. rewrite Hsplit, map_app in Hnd. simpl in Hnd.
    apply NoDup_app in Hnd as (_ & Hdisj & Hnd).
    apply NoDup_cons in Hnd as [Hnotin _].
    destruct Hx as [Hx|Hx].
    - apply (Hdisj (hash item)).
      + apply list_elem_of_In, in_map_iff. eauto.
      + apply list_elem_of_In. now left.
    - apply Hnotin, list_elem_of_In, in_map_iff. eauto. }
  rewrite Hsplit, List.filter_app. simpl. rewrite String.eqb_refl. simpl.
  rewrite !filter_all; [reflexivity | |]; intros x Hx; apply Hother; tauto.
Qed.

(** In a well-formed store, removing a stored bookmark deletes that one
    bookmark and nothing else. *)
Theorem removeItem_deletes_one
    (item : Item) (conf : Conf) (before after : list Item) :
  wellFormed conf ->
  getItems conf = before ++ item :: after ->
  getItems (removeItem item conf) = before ++ after.
Proof. apply wellFormed_removeItem_split. Qed.

(** In a store where every hash is the hash of the url stored with it,
    removing the bookmark a successful [add] has just stored gives back the
    list of bookmarks there was before. *)
Theorem addCommand_then_removeItem
    (s : Session) (arg : option string) (conf : Conf) :
  (forall x, In x (getItems conf) -> hash x = hashUrl (url x)) ->
  printed (addCommand s arg conf) = [Info "Following item has been added!"] ->
  exists item,
    getItems (stored (addCommand s arg conf)) = getItems conf ++ [item]
    /\ getItems (removeItem item (stored (addCommand s arg conf))) = getItems conf.
Proof.
  intros Hhash Hok.
  destruct (addCommand_runs s arg conf)
    as [[_ Hno]|(u & c & t & _ & _ & Hnew & _ & _ & Hrun)]; [contradiction|].
  exists (mkItem (hashUrl u) u c (Some t)). rewrite Hrun. cbn [stored].
  split; [reflexivity|].
  rewrite removeItem_getItems.
  change (getItems (addItem (mkItem (hashUrl u) u c (Some t)) conf))
    with (getItems conf ++ [mkItem (hashUrl u) u c (Some t)]).
  rewrite List.filter_app. simpl. rewrite String.eqb_refl. simpl.
  rewrite app_nil_r. apply filter_all.
  intros x Hx. apply negb_true_iff, String.eqb_neq. intros Hurl.
  apply (getItem_None u conf Hnew x Hx). rewrite (Hhash x Hx). now rewrite Hurl.
Qed.

(** In a store with pairwise distinct hashes [getItem] finds a bookmark
    exactly when it is stored under the hash of the url asked for. *)
Theorem getItem_iff (u : string) (conf : Conf) (it : Item) :
  NoDup (map hash (getItems conf)) ->
  getItem u conf = Some it <-> In it (getItems conf) /\ hash it = hashUrl u.
Proof.
  intros Hnd. split.
  - intros Hget. apply getItem_Some in Hget as (before & after & Hsplit & Hh & _).
    split; [rewrite Hsplit; apply in_elt | assumption].
  - intros [Hin Hh].
    destruct (getItem_finds u conf it Hin Hh) as [e He]. rewrite He. f_equal.
    apply getItem_Some in He as (before & after & Hsplit & Hhe & _).
    apply (NoDup_map_eq hash (getItems conf)); try assumption.
    + rewrite Hsplit. apply in_elt.
    + congruence.
Qed.

End AddToStore.

(** ** The metadata fetcher and the network *)

Section FetchAndAdd.
Context {pkg : Packages}.

Lemma fetchItemMeta_error_first (u reason : string) (t : N) :
  (t <= 5000)%N ->
  fetchItemMeta u (SettlesAt t (Rejected reason)) = SettlesAt t (Rejected reason).
Proof.
  intros Hearly. unfold fetchItemMeta, timeout. simpl.
  destruct (N.leb_spec t 5000); [reflexivity | lia].
Qed.

(** A GET that fails (no response at all: a refused connection, a name
    that does not resolve) before the timeout makes [add] end in that
    failure, whatever the user answers: nothing is printed and nothing is
    stored. *)
Theorem addCommand_network_error
    (s : Session) (arg : option string) (u reason : string) (t : N) (conf : Conf) :
  urlGiven s arg = Some u ->
  isUri u = true ->
  getItem u conf = None ->
  wire s = SettlesAt t (Rejected reason) ->
  (t <= 5000)%N ->
  addCommand s arg conf = mkRun conf [] (Uncaught reason).
Proof.
  intros Hurl Hvalid Hnew Hwire Hearly. unfold addCommand.
  rewrite Hurl, Hvalid, Hnew, Hwire. simpl negb. cbv iota.
  now rewrite fetchItemMeta_error_first.
Qed.

Lemma inputTitle_default (suggested : string) (s : Session) (later : list string) :
  suggested <> "" -> titleTyped s = "" :: later ->
  inputTitle (Some suggested) s = Some suggested.
Proof.
  intros Hne Htyped. unfold inputTitle. rewrite Htyped. simpl.
  destruct suggested; [contradiction | reflexivity].
Qed.

Lemma inputTitle_no_default (s : Session) (t : string) (later : list string) :
  t <> "" -> titleTyped s = "" :: t :: later -> inputTitle None s = Some t.
Proof.
  intros Hne Htyped. unfold inputTitle. rewrite Htyped. simpl.
  destruct t; [contradiction | reflexivity].
Qed.

(** When the page answers before the timeout and metascraper finds a
    title in it, a user who submits the title prompt empty gets that title
    stored. *)
Theorem addCommand_keeps_scraped_title
    (s : Session) (arg : option string) (u c scraped : string) (t : N)
    (r : Got.Response) (later : list string) (conf : Conf) :
  urlGiven s arg = Some u ->
  isUri u = true ->
  getItem u conf = None ->
  wire s = SettlesAt t (Fulfilled r) ->
  (t < 5000)%N ->
  metascraper (Got.body r) u = Some scraped ->
  scraped <> "" ->
  selectCollection true s conf = Some c ->
  titleTyped s = "" :: later ->
  addCommand s arg conf
  = mkRun (addItem (mkItem (hashUrl u) u c (Some scraped)) conf)
          [Info "Following item has been added!"] Done.
Proof.
  intros Hurl Hvalid Hnew Hwire Hearly Hmeta Hne Hc Htyped. unfold addCommand.
  rewrite Hurl, Hvalid, Hnew, Hwire, Hc. simpl negb. cbv iota.
  rewrite fetchItemMeta_response_first by assumption.
  unfold createItem. cbn [title meta_title meta_url hash url collection].
  rewrite Hmeta, (inputTitle_default scraped s later) by assumption.
  reflexivity.
Qed.

(** When the timeout wins there is no title to suggest: an empty
    submission at the title prompt is refused, and the next text the user
    types is the title stored. *)
Theorem addCommand_title_after_timeout
    (s : Session) (arg : option string) (u c t : string)
    (later : list string) (conf : Conf) :
  urlGiven s arg = Some u ->
  isUri u = true ->
  getItem u conf = None ->
  settlesAfter 5000 (wire s) ->
  selectCollection true s conf = Some c ->
  t <> "" ->
  titleTyped s = "" :: t :: later ->
  addCommand s arg conf
  = mkRun (addItem (mkItem (hashUrl u) u c (Some t)) conf)
          [Info "Following item has been added!"] Done.
Proof.
  intros Hurl Hvalid Hnew Hlate Hc Hne Htyped. unfold addCommand.
  rewrite Hurl, Hvalid, Hnew, Hc. simpl negb. cbv iota.
  rewrite fetchItemMeta_timeout_first by assumption.
  unfold createItem. cbn [title meta_title meta_url hash url collection].
  rewrite (inputTitle_no_default s t later) by assumption.
  reflexivity.
Qed.

(** ** The earlier revision of [add] *)

(** Its runs: as those of index.js, the url being the argument. *)
Lemma earlier_addCommand_runs (s : Session) (u : string) (conf : Conf) :
  (stored (Earlier.addCommand s u conf) = conf
   /\ printed (Earlier.addCommand s u conf) <> [Info "Following item has been added!"])
  \/ exists c t,
       isUri u = true
       /\ getItem u conf = None
       /\ t <> ""
       /\ Earlier.addCommand s u conf
          = mkRun (addItem (mkItem (hashUrl u) u c (Some t)) conf)
                  [Info "Following item has been added!"] Done.
Proof.
  unfold Earlier.addCommand.
  destruct (isUri u) eqn:Evalid; simpl negb; cbv iota;
    [|left; split; [reflexivity | discriminate]].
  destruct (getItem u conf) as [e|] eqn:Eget;
    [left; split; [reflexivity | discriminate]|].
  destruct (Earlier.selectCollection s) as [c|];
    [|left; split; [reflexivity | discriminate]].
  unfold Earlier.createItem.
  destruct (Got.got false (wire s)) as [|tm [r|reason]]; simpl;
    try (left; split; [reflexivity | discriminate]).
  destruct (inputTitle _ s) as [t|] eqn:Etitle;
    [|left; split; [reflexivity | discriminate]].
  right. exists c, t. apply inputTitle_nonempty in Etitle. auto.
Qed.

(** The earlier [add] too leaves the stored bookmarks as they are and
    writes only on success, appending one bookmark for the url given, with
    the hash of that url and a title that is not empty. *)
Theorem earlier_addCommand_only_appends (s : Session) (u : string) (conf : Conf) :
  (stored (Earlier.addCommand s u conf) = conf
   /\ printed (Earlier.addCommand s u conf) <> [Info "Following item has been added!"])
  \/ exists item t,
       getItems (stored (Earlier.addCommand s u conf)) = getItems conf ++ [item]
       /\ printed (Earlier.addCommand s u conf) = [Info "Following item has been added!"]
       /\ getItem u conf = None
       /\ url item = u
       /\ hash item = hashUrl u
       /\ title item = Some t /\ t <> "".
Proof.
  destruct (earlier_addCommand_runs s u conf)
    as [Hsame|(c & t & _ & Hnew & Ht & Hrun)]; [now left|].
  right. exists (mkItem (hashUrl u) u c (Some t)), t.
  rewrite Hrun. simpl. auto 10.
Qed.

(** The earlier [add] keeps the store well formed. *)
Theorem earlier_addCommand_keeps_wellFormed (s : Session) (u : string) (conf : Conf) :
  wellFormed conf -> wellFormed (stored (Earlier.addCommand s u conf)).
Proof.
  intros Hwf.
  destruct (earlier_addCommand_runs s u conf)
    as [[-> _]|(c & t & _ & Hnew & _ & ->)]; [assumption|].
  simpl. now apply wellFormed_addItem.
Qed.

(** The earlier revision has no timeout on the GET: when the server never
    answers, its [add] never ends and stores nothing, where the [add] of
    index.js stores the bookmark once the user has chosen a collection and
    typed a title. *)
Theorem earlier_addCommand_waits_for_the_server
    (s : Session) (u c t : string) (conf : Conf) :
  isUri u = true ->
  getItem u conf = None ->
  wire s = Pending ->
  selectCollection true s conf = Some c ->
  inputTitle None s = Some t ->
  Earlier.addCommand s u conf = mkRun conf [] Hung
  /\ (u <> "" ->
      addCommand s (Some u) conf
      = mkRun (addItem (mkItem (hashUrl u) u c (Some t)) conf)
              [Info "Following item has been added!"] Done).
Proof.
  intros Hvalid Hnew Hwire Hc Htitle. split.
  - unfold Earlier.addCommand, Earlier.createItem.
    rewrite Hvalid, Hnew, Hwire. simpl.
    now destruct (Earlier.selectCollection s).
  - intros Hne. unfold addCommand.
    assert (Hurl : urlGiven s (Some u) = Some u)
      by (destruct u; [contradiction | reflexivity]).
    rewrite Hurl, Hvalid, Hnew, Hwire, Hc. simpl negb. cbv iota.
    rewrite fetchItemMeta_timeout_first by exact I.
    unfold createItem. cbn [title meta_title meta_url hash url collection].
    now rewrite Htitle.
Qed.

End FetchAndAdd.

(** ** Choosing a collection *)

Lemma prefix_append (p s : string) : String.prefix p (p +:+ s) = true.
Proof.
  induction p as [|c p IH]; simpl.
  - now destruct s.
  - destruct (ascii_dec c c); [assumption | contradiction].
Qed.

Lemma substring_all (s : string) : String.substring 0 (String.length s) s = s.
Proof. induction s as [|c s IH]; simpl; [reflexivity | now rewrite IH]. Qed.

Lemma substring_after_prefix (p s : string) :
  String.substring (String.length p)
    (String.length (p +:+ s) - String.length p) (p +:+ s) = s.
Proof.
  induction p as [|c p IH]; simpl.
  - rewrite Nat.sub_0_r. apply substring_all.
  - exact IH.
Qed.

Lemma replace_unfold (pat rep s : string) :
  replace pat rep s
  = if String.prefix pat s
    then rep +:+ String.substring (String.length pat)
                   (String.length s - String.length pat) s
    else match s with
         | EmptyString => EmptyString
         | String c s' => String c (replace pat rep s')
         end.
Proof. destruct s; reflexivity. Qed.

Lemma replace_prefix (pat rep s : string) :
  replace pat rep (pat +:+ s) = rep +:+ s.
Proof.
  rewrite replace_unfold, prefix_append. now rewrite substring_after_prefix.
Qed.

Lemma occursIn_unfold (pat s : string) :
  occursIn pat s
  = String.prefix pat s
    || match s with
       | EmptyString => false
       | String _ s' => occursIn pat s'
       end.
Proof. destruct s; reflexivity. Qed.

Lemma replace_absent (pat rep s : string) :
  occursIn pat s = false -> replace pat rep s = s.
Proof.
  induction s as [|c s IH]; intros Hocc; rewrite occursIn_unfold in Hocc;
    apply orb_false_iff in Hocc as [Hpre Hrest]; rewrite replace_unfold, Hpre.
  - reflexivity.
  - f_equal. now apply IH.
Qed.

(** Confirming the choice "create collection: " followed by a name gives
    the name alone as the collection; [validate] lets this answer through
    whether or not the caller offers to create. *)
Theorem selectCollection_created
    (createNew : bool) (s : Session) (name : string) (later : list string)
    (conf : Conf) :
  collectionTyped s = (createCollectionStr +:+ name) :: later ->
  selectCollection createNew s conf = Some name.
Proof.
  intros Htyped. unfold selectCollection. rewrite Htyped.
  cbn [prompt]. rewrite prefix_append.
  replace (0 <? String.length (createCollectionStr +:+ name)) with true
    by reflexivity.
  cbn [andb orb fmap option_fmap option_map].
  now rewrite replace_prefix.
Qed.

(** Confirming the label of an existing collection gives that very label,
    provided the text "create collection: " does not occur in it. *)
Theorem selectCollection_existing
    (createNew : bool) (s : Session) (val : string) (later : list string)
    (conf : Conf) :
  collectionTyped s = val :: later ->
  In val (getCollections conf) ->
  val <> "" ->
  occursIn createCollectionStr val = false ->
  selectCollection createNew s conf = Some val.
Proof.
  intros Htyped Hin Hne Hocc. unfold selectCollection. rewrite Htyped.
  cbn [prompt].
  assert (Hlen : (0 <? String.length val) = true)
    by (destruct val; [contradiction | reflexivity]).
  apply existsb_eqb_In in Hin. rewrite Hlen, Hin, orb_true_r.
  cbn [andb fmap option_fmap option_map].
  now rewrite replace_absent.
Qed.

Lemma fuzzySearchCollections_sub (input : option string) (conf : Conf) (val : string) :
  In val (fuzzySearchCollections input conf) -> In val (getCollections conf).
Proof.
  destruct input as [[|c input]|]; [trivial | | trivial].
  intros Hin. rewrite fuzzySearchCollections_nonempty in Hin by discriminate.
  now apply fuzzy_filter_In in Hin.
Qed.

(** Every choice the collection prompt offers is the label of an existing
    collection, or, only for a caller that offers to create and for a
    non-empty input, "create collection: " followed by that input. *)
Theorem choices_offered
    (createNew : bool) (input : option string) (conf : Conf) (val : string) :
  In val (choices createNew input conf) ->
  In val (getCollections conf)
  \/ (createNew = true
      /\ exists typed,
           input = Some typed /\ typed <> ""
           /\ val = createCollectionStr +:+ typed).
Proof.
  unfold choices.
  destruct ((0 <? String.length (default "" input)) && createNew) eqn:E.
  - apply andb_true_iff in E as [Hlen ->].
    intros Hin. apply in_app_iff in Hin as [Hin|[<-|[]]].
    + left. now apply fuzzySearchCollections_sub in Hin.
    + right. split; [reflexivity|].
      destruct input as [typed|]; [|discriminate].
      exists typed. repeat split. now apply length_pos_nonempty.
  - intros Hin. left. now apply fuzzySearchCollections_sub in Hin.
Qed.

(** ** Choosing an item, [remove] and [open] *)

Lemma lookup_map {A B : Type} (f : A -> B) (l : list A) (i : nat) :
  map f l !! i = f <$> l !! i.
Proof.
  revert i. induction l as [|a l IH]; intros [|i]; simpl; try reflexivity.
  apply IH.
Qed.

Lemma indexOf_first (answer : option string) (choices : list (option string)) (k : nat) :
  choices !! k = Some answer ->
  exists i,
    indexOf answer choices = Some i
    /\ i <= k
    /\ choices !! i = Some answer
    /\ forall j, j < i -> choices !! j <> Some answer.
Proof.
  revert k. induction choices as [|choice rest IH]; intros k Hk; [discriminate|].
  simpl. case_bool_decide as Heq.
  - subst choice. exists 0. repeat split; [lia | intros j Hj; lia].
  - destruct k as [|k]; [simpl in Hk; congruence|].
    destruct (IH k Hk) as (i & Hi & Hle & Hlook & Hmin).
    exists (S i). rewrite Hi. repeat split; [lia | assumption |].
    intros [|j] Hj; simpl; [congruence | apply Hmin; lia].
Qed.

Lemma getCollectionItems_In (c : string) (conf : Conf) (it : Item) :
  In it (getCollectionItems c conf) <-> In it (getItems conf) /\ collection it = c.
Proof. unfold getCollectionItems. now rewrite filter_In, String.eqb_eq. Qed.

Lemma lookup_In {A : Type} (l : list A) (i : nat) (x : A) :
  l !! i = Some x -> In x l.
Proof. intros Hl. apply list_elem_of_In, list_elem_of_lookup. eauto. Qed.

Lemma titled_choices (c : string) (conf : Conf) :
  titled c conf ->
  existsb (fun choice => negb (bool_decide (is_Some choice)))
          (map title (getCollectionItems c conf)) = false.
Proof.
  intros Htitled. apply not_true_is_false. intros Hex.
  apply existsb_exists in Hex as (choice & Hin & Hneg).
  apply in_map_iff in Hin as (x & <- & Hx).
  apply negb_true_iff, bool_decide_eq_false in Hneg.
  apply Hneg, Htitled, Hx.
Qed.

(** One bookmark without a title in the collection, and the prompt throws
    whatever the position the user would have picked. *)
Lemma selectItem_untitled (c : string) (k : nat) (conf : Conf) (x : Item) :
  In x (getCollectionItems c conf) -> title x = None ->
  selectItem c k conf = PromptThrows.
Proof.
  intros Hx Hnone. unfold selectItem. cbv zeta.
  assert (Hex : existsb (fun choice => negb (bool_decide (is_Some choice)))
                        (map title (getCollectionItems c conf)) = true).
  { apply existsb_exists. exists (title x). split; [now apply in_map|].
    rewrite Hnone. apply negb_true_iff, bool_decide_eq_false.
    intros [t Ht]. discriminate. }
  now rewrite Hex.
Qed.

(** The item [selectItem] returns for the choice in position [k], every
    bookmark of the collection having a title. *)
Lemma selectItem_answer (c : string) (k : nat) (conf : Conf) (picked : Item) :
  titled c conf ->
  getCollectionItems c conf !! k = Some picked ->
  exists i it,
    selectItem c k conf = Returned (Some it)
    /\ i <= k
    /\ getCollectionItems c conf !! i = Some it
    /\ title it = title picked
    /\ forall j x, j < i -> getCollectionItems c conf !! j = Some x ->
                   title x <> title picked.
Proof.
  intros Htitled Hk. unfold selectItem. cbv zeta.
  rewrite (titled_choices c conf Htitled).
  assert (Hchoice : map title (getCollectionItems c conf) !! k = Some (title picked))
    by now rewrite lookup_map, Hk.
  rewrite Hchoice.
  destruct (indexOf_first _ _ _ Hchoice) as (i & Hi & Hle & Hlook & Hmin).
  rewrite Hi. rewrite lookup_map in Hlook.
  destruct (getCollectionItems c conf !! i) as [it|] eqn:Hit; [|discriminate].
  injection Hlook as Htitle.
  exists i, it. repeat split; try assumption.
  intros j x Hj Hx Heq. apply (Hmin j Hj).
  rewrite lookup_map, Hx. simpl. now rewrite Heq.
Qed.

Lemma selectItem_unique (c : string) (k : nat) (conf : Conf) (picked : Item) :
  titled c conf ->
  NoDup (map title (getCollectionItems c conf)) ->
  getCollectionItems c conf !! k = Some picked ->
  selectItem c k conf = Returned (Some picked).
Proof.
  intros Htitled Hnd Hk.
  destruct (selectItem_answer c k conf picked Htitled Hk)
    as (i & it & Hsel & _ & Hi & Htitle & _).
  assert (i = k) as ->.
  { apply (NoDup_lookup _ i k (title picked) Hnd).
    - rewrite lookup_map, Hi. simpl. now rewrite Htitle.
    - now rewrite lookup_map, Hk. }
  congruence.
Qed.

(** When every bookmark of the collection asked for has a title,
    [selectItem] returns a stored bookmark of the collection that has the
    title picked: the first one with that title, which need not be the one
    at the position picked. *)
Theorem selectItem_first_with_title
    (c : string) (k : nat) (conf : Conf) (picked : Item) :
  titled c conf ->
  getCollectionItems c conf !! k = Some picked ->
  exists i it,
    selectItem c k conf = Returned (Some it)
    /\ In it (getItems conf) /\ collection it = c
    /\ title it = title picked
    /\ i <= k
    /\ getCollectionItems c conf !! i = Some it
    /\ forall j x, j < i -> getCollectionItems c conf !! j = Some x ->
                   title x <> title picked.
Proof.
  intros Htitled Hk.
  destruct (selectItem_answer c k conf picked Htitled Hk)
    as (i & it & Hsel & Hle & Hi & Htitle & Hmin).
  exists i, it. pose proof (lookup_In _ _ _ Hi) as Hin.
  apply getCollectionItems_In in Hin as [Hin Hcol].
  repeat (split; [assumption|]). assumption.
Qed.

(** When every bookmark of a collection has a title and the titles are
    pairwise distinct, [selectItem] returns the bookmark at the position
    picked. *)
Theorem selectItem_distinct_titles
    (c : string) (k : nat) (conf : Conf) (picked : Item) :
  titled c conf ->
  NoDup (map title (getCollectionItems c conf)) ->
  getCollectionItems c conf !! k = Some picked ->
  selectItem c k conf = Returned (Some picked).
Proof. apply selectItem_unique. Qed.

(** When every bookmark of the collection chosen has a title, [remove]
    deletes by url the bookmark [selectItem] returns for the collection, a
    stored bookmark with the title picked, and reports it: afterwards no
    stored bookmark has that url and every bookmark with another url is
    still stored. *)
Theorem removeCommand_removes_selected
    (s : Session) (c : string) (k : nat) (conf : Conf) (picked : Item) :
  selectCollection false s conf = Some c ->
  titled c conf ->
  getCollectionItems c conf !! k = Some picked ->
  exists it,
    removeCommand s k conf
    = mkRun (removeItem it conf) [Info "Bookmark removed!"] Done
    /\ In it (getItems conf) /\ collection it = c
    /\ title it = title picked
    /\ forall x, In x (getItems (stored (removeCommand s k conf)))
                 <-> In x (getItems conf) /\ url x <> url it.
Proof.
  intros Hc Htitled Hk.
  destruct (selectItem_answer c k conf picked Htitled Hk)
    as (i & it & Hsel & _ & Hi & Htitle & _).
  apply lookup_In in Hi. apply getCollectionItems_In in Hi as [Hin Hcol].
  assert (Hrun : removeCommand s k conf
                 = mkRun (removeItem it conf) [Info "Bookmark removed!"] Done)
    by (unfold removeCommand; now rewrite Hc, Hsel).
  exists it. repeat (split; [assumption|]).
  intros x. rewrite Hrun. cbn [stored]. apply removeItem_In.
Qed.

Section RemoveAndOpen.
Context {pkg : Packages}.

(** In a well-formed store, when every bookmark of the collection chosen
    has a title and the titles are pairwise distinct, [remove] deletes the
    bookmark picked and no other: the list stored afterwards is the list
    before without it. *)
Theorem removeCommand_deletes_the_one_picked
    (s : Session) (conf : Conf) (before after : list Item) (picked : Item) :
  wellFormed conf ->
  getItems conf = before ++ picked :: after ->
  titled (collection picked) conf ->
  NoDup (map title (getCollectionItems (collection picked) conf)) ->
  selectCollection false s conf = Some (collection picked) ->
  removeCommand s
    (length (getCollectionItems (collection picked) (Some before))) conf
  = mkRun (Some (before ++ after)) [Info "Bookmark removed!"] Done.
Proof.
  intros Hwf Hsplit Htitled Hnd Hc.
  assert (Hk : getCollectionItems (collection picked) conf
               !! length (getCollectionItems (collection picked) (Some before))
               = Some picked).
  { assert (E : getCollectionItems (collection picked) conf
                 = getCollectionItems (collection picked) (Some before)
                   ++ picked :: getCollectionItems (collection picked) (Some after)).
    { unfold getCollectionItems. rewrite Hsplit, List.filter_app. simpl.
      now rewrite String.eqb_refl. }
    rewrite E. now apply list_lookup_middle. }
  unfold removeCommand. rewrite Hc, (selectItem_unique _ _ _ _ Htitled Hnd Hk).
  f_equal. unfold removeItem, saveItems. f_equal.
  exact (wellFormed_removeItem_split picked conf before after Hwf Hsplit).
Qed.

End RemoveAndOpen.

(** When every bookmark of the collection chosen has a title and two of
    them have the same one, [a] being the first with it, picking the later
    one [b] makes [remove] delete [a]; [b] stays stored unless it has the
    url of [a]. *)
Theorem removeCommand_title_clash
    (s : Session) (c : string) (conf : Conf) (l1 l2 l3 : list Item) (a b : Item) :
  titled c conf ->
  getCollectionItems c conf = l1 ++ a :: l2 ++ b :: l3 ->
  title a = title b ->
  (forall x, In x l1 -> title x <> title a) ->
  selectCollection false s conf = Some c ->
  removeCommand s (length l1 + S (length l2)) conf
  = mkRun (removeItem a conf) [Info "Bookmark removed!"] Done
  /\ (url b <> url a -> In b (getItems (removeItem a conf))).
Proof.
  intros Htitled Hitems Htitle Hfirst Hc.
  assert (Ha : getCollectionItems c conf !! length l1 = Some a)
    by (rewrite Hitems; now apply list_lookup_middle).
  assert (Hb : getCollectionItems c conf !! (length l1 + S (length l2)) = Some b).
  { rewrite Hitems, lookup_app_r by lia.
    replace (length l1 + S (length l2) - length l1) with (S (length l2)) by lia.
    simpl. now apply list_lookup_middle. }
  destruct (selectItem_answer c _ conf b Htitled Hb)
    as (i & it & Hsel & _ & Hi & Hit & Hmin).
  assert (i = length l1) as ->.
  { destruct (Nat.lt_trichotomy i (length l1)) as [Hlt|[Heq|Hgt]]; [|assumption|].
    - exfalso. rewrite Hitems, lookup_app_l in Hi by assumption.
      apply lookup_In in Hi. apply (Hfirst it Hi). congruence.
    - exfalso. exact (Hmin (length l1) a Hgt Ha Htitle). }
  assert (it = a) as -> by congruence.
  split.
  - unfold removeCommand. now rewrite Hc, Hsel.
  - intros Hurl. apply removeItem_In. split; [|assumption].
    apply lookup_In, getCollectionItems_In in Hb. tauto.
Qed.

(** When every bookmark of the collection chosen has a title, [open]
    hands to the browser the url of the bookmark [selectItem] returns for
    the collection, a stored bookmark with the title picked, and leaves the
    store as it is. *)
Theorem openCommand_opens_selected
    (s : Session) (c : string) (k : nat) (conf : Conf) (picked : Item) :
  selectCollection false s conf = Some c ->
  titled c conf ->
  getCollectionItems c conf !! k = Some picked ->
  exists it,
    openCommand s k conf = (mkRun conf [] Done, Some (url it))
    /\ In it (getItems conf) /\ collection it = c
    /\ title it = title picked
    /\ (NoDup (map title (getCollectionItems c conf)) -> it = picked).
Proof.
  intros Hc Htitled Hk.
  destruct (selectItem_answer c k conf picked Htitled Hk)
    as (i & it & Hsel & _ & Hi & Htitle & _).
  apply lookup_In in Hi. apply getCollectionItems_In in Hi as [Hin Hcol].
  exists it. split; [unfold openCommand; now rewrite Hc, Hsel|].
  repeat (split; [assumption|]).
  intros Hnd. pose proof (selectItem_unique c k conf picked Htitled Hnd Hk).
  congruence.
Qed.

(** ** The collections of the store *)

(** Storing a bookmark under a label some stored bookmark has leaves the
    list of collections as it is; under a new label, the label is added at
    the end. *)
Theorem getCollections_addItem (item : Item) (conf : Conf) :
  (In (collection item) (getCollections conf) ->
   getCollections (addItem item conf) = getCollections conf)
  /\ (~ In (collection item) (getCollections conf) ->
      getCollections (addItem item conf)
      = getCollections conf ++ [collection item]).
Proof.
  assert (Hstep : getCollections (addItem item conf)
                  = uniqStep (getCollections conf) (collection item)).
  { unfold getCollections, addItem, uniq.
    change (getItems (saveItems (getItems conf ++ [item]) conf))
      with (getItems conf ++ [item]).
    now rewrite map_app, fold_left_app. }
  rewrite Hstep. unfold uniqStep.
  destruct (existsb (String.eqb (collection item)) (getCollections conf)) eqn:E.
  - apply existsb_eqb_In in E. tauto.
  - split; [|reflexivity]. intros Hin. apply existsb_eqb_In in Hin. congruence.
Qed.

(** The labels [getCollections] returns are the labels of the collections
    that hold a bookmark: [getCollectionItems] is empty for every other
    label and for none of them. *)
Theorem getCollectionItems_nonempty (c : string) (conf : Conf) :
  In c (getCollections conf) <-> getCollectionItems c conf <> [].
Proof.
  rewrite getCollections_In. split.
  - intros (it & Hin & Hcol) Hempty.
    assert (Hit : In it (getCollectionItems c conf))
      by now apply getCollectionItems_In.
    rewrite Hempty in Hit. contradiction.
  - destruct (getCollectionItems c conf) as [|it rest] eqn:E; [congruence|].
    intros _. exists it. apply getCollectionItems_In. rewrite E. now left.
Qed.

(** ** More on the [list] command *)

Section ListAll.
Context {pkg : Packages}.








End ListAll.

(** ** The properties above, on the example stores *)

Ltac sample_wellFormed :=
  split;
  [ apply (bool_decide_unpack _); vm_compute; exact I
  | let x := fresh "x" in
    let H := fresh "H" in
    intros x H; simpl in H;
    repeat (destruct H as [<-|H]; [vm_compute; reflexivity|]);
    destruct H ].

Lemma removeItem_unknown_url_witness :
  let conf := Some [workItem; funItem] in
  getItems (removeItem strayItem conf) = getItems conf.
Proof.
  intros conf. apply (removeItem_unknown_url strayItem conf).
  intros x [<-|[<-|[]]]; discriminate.
Defined.

Lemma addCommand_then_getItem_witness :
  let conf := Some [workItem] in
  exists c t,
    selectCollection true readingSession conf = Some c
    /\ @getItem node "https://example.com"
         (stored (@addCommand node readingSession (Some "https://example.com") conf))
       = Some (mkItem (@hashUrl node "https://example.com") "https://example.com"
                      c (Some t)).
Proof.
  intros conf.
  apply (@addCommand_then_getItem node readingSession
           (Some "https://example.com") "https://example.com" conf).
  - reflexivity.
  - vm_compute. reflexivity.
Defined.

Lemma addCommand_keeps_wellFormed_witness :
  let conf := Some [workItem; funItem] in
  @wellFormed node conf
  /\ @wellFormed node
       (stored (@addCommand node readingSession (Some "https://example.com") conf)).
Proof.
  intros conf.
  assert (Hwf : @wellFormed node conf) by sample_wellFormed.
  split; [exact Hwf|].
  apply (@addCommand_keeps_wellFormed node readingSession
           (Some "https://example.com") conf Hwf).
Defined.

Lemma removeItem_keeps_wellFormed_witness :
  let conf := Some [workItem; funItem] in
  @wellFormed node (removeItem workItem conf).
Proof.
  intros conf. apply (@removeItem_keeps_wellFormed node workItem conf).
  sample_wellFormed.
Defined.

Lemma removeItem_deletes_one_witness :
  let conf := Some [workItem; funItem; longTitleItem] in
  getItems (removeItem funItem conf) = [workItem] ++ [longTitleItem].
Proof.
  intros conf.
  apply (@removeItem_deletes_one node funItem conf [workItem] [longTitleItem]).
  - sample_wellFormed.
  - reflexivity.
Defined.

Lemma addCommand_then_removeItem_witness :
  let conf := Some [workItem] in
  let run := @addCommand node readingSession (Some "https://example.com") conf in
  exists item,
    getItems (stored run) = getItems conf ++ [item]
    /\ getItems (removeItem item (stored run)) = getItems conf.
Proof.
  intros conf run.
  apply (@addCommand_then_removeItem node readingSession
           (Some "https://example.com") conf).
  - intros x [<-|[]]. vm_compute. reflexivity.
  - vm_compute. reflexivity.
Defined.

Lemma getItem_iff_witness :
  let conf := Some [workItem; funItem] in
  @getItem node "https://xkcd.com/" conf = Some funItem
  <-> In funItem (getItems conf) /\ hash funItem = @hashUrl node "https://xkcd.com/".
Proof.
  intros conf. apply (@getItem_iff node "https://xkcd.com/" conf funItem).
  apply (bool_decide_unpack _). vm_compute. exact I.
Defined.

Lemma addCommand_network_error_witness :
  let conf := Some [workItem] in
  @addCommand node refusedSession (Some "https://example.com") conf
  = mkRun conf [] (Uncaught "RequestError: connect ECONNREFUSED").
Proof.
  intros conf.
  apply (@addCommand_network_error node refusedSession (Some "https://example.com")
           "https://example.com" "RequestError: connect ECONNREFUSED" 30%N conf).
  - reflexivity.
  - reflexivity.
  - vm_compute. reflexivity.
  - reflexivity.
  - lia.
Defined.

Lemma addCommand_keeps_scraped_title_witness :
  let conf := Some [workItem] in
  @addCommand node quickSession (Some "https://example.com") conf
  = mkRun (addItem (mkItem (@hashUrl node "https://example.com")
                           "https://example.com" "reading" (Some "Example Domain"))
                   conf)
          [Info "Following item has been added!"] Done.
Proof.
  intros conf.
  apply (@addCommand_keeps_scraped_title node quickSession
           (Some "https://example.com") "https://example.com" "reading"
           "Example Domain" 120%N
           (Got.mkResponse 200 "<html><title>Example Domain</title></html>")
           [] conf).
  - reflexivity.
  - reflexivity.
  - vm_compute. reflexivity.
  - reflexivity.
  - lia.
  - vm_compute. reflexivity.
  - discriminate.
  - reflexivity.
  - reflexivity.
Defined.

Lemma addCommand_title_after_timeout_witness :
  let conf := Some [workItem] in
  @addCommand node slowSession (Some "https://example.com") conf
  = mkRun (addItem (mkItem (@hashUrl node "https://example.com")
                           "https://example.com" "reading" (Some "My own title"))
                   conf)
          [Info "Following item has been added!"] Done.
Proof.
  intros conf.
  apply (@addCommand_title_after_timeout node slowSession
           (Some "https://example.com") "https://example.com" "reading"
           "My own title" [] conf).
  - reflexivity.
  - reflexivity.
  - vm_compute. reflexivity.
  - simpl. lia.
  - reflexivity.
  - discriminate.
  - reflexivity.
Defined.

Lemma earlier_addCommand_keeps_wellFormed_witness :
  let conf := Some [workItem; funItem] in
  @wellFormed node
    (stored (@Earlier.addCommand node quickSession "https://example.com" conf)).
Proof.
  intros conf.
  apply (@earlier_addCommand_keeps_wellFormed node quickSession
           "https://example.com" conf).
  sample_wellFormed.
Defined.

Lemma earlier_addCommand_waits_for_the_server_witness :
  @Earlier.addCommand node readingSession "https://example.com" None
  = mkRun None [] Hung
  /\ ("https://example.com" <> "" ->
      @addCommand node readingSession (Some "https://example.com") None
      = mkRun (addItem (mkItem (@hashUrl node "https://example.com")
                               "https://example.com" "reading" (Some "Example"))
                       None)
              [Info "Following item has been added!"] Done).
Proof.
  apply (@earlier_addCommand_waits_for_the_server node readingSession
           "https://example.com" "reading" "Example" None); reflexivity.
Defined.

Lemma selectCollection_created_witness :
  selectCollection true readingSession (Some [workItem]) = Some "reading".
Proof.
  apply (selectCollection_created true readingSession "reading" []).
  reflexivity.
Defined.

Lemma selectCollection_existing_witness :
  selectCollection false workSession (Some [workItem; funItem]) = Some "work".
Proof.
  apply (selectCollection_existing false workSession "work" []).
  - reflexivity.
  - simpl. tauto.
  - discriminate.
  - reflexivity.
Defined.

Lemma choices_offered_witness :
  let conf := Some [workItem; funItem] in
  In "create collection: wo" (choices true (Some "wo") conf)
  /\ (In "create collection: wo" (getCollections conf)
      \/ (true = true
          /\ exists typed,
               Some "wo" = Some typed /\ typed <> ""
               /\ "create collection: wo" = createCollectionStr +:+ typed)).
Proof.
  intros conf.
  assert (Hin : In "create collection: wo" (choices true (Some "wo") conf))
    by (vm_compute; tauto).
  split; [exact Hin|].
  apply (choices_offered true (Some "wo") conf "create collection: wo" Hin).
Defined.

Ltac sample_titled :=
  let x := fresh "x" in
  let Hx := fresh "Hx" in
  intros x Hx; vm_compute in Hx;
  repeat (destruct Hx as [<-|Hx]; [eexists; reflexivity|]);
  destruct Hx.

Lemma selectItem_first_with_title_witness :
  let conf := Some [workItem; funItem; twinItem] in
  exists i it,
    selectItem "work" 1 conf = Returned (Some it)
    /\ In it (getItems conf) /\ collection it = "work"
    /\ title it = title twinItem
    /\ i <= 1
    /\ getCollectionItems "work" conf !! i = Some it
    /\ forall j x, j < i -> getCollectionItems "work" conf !! j = Some x ->
                   title x <> title twinItem.
Proof.
  intros conf. apply (selectItem_first_with_title "work" 1 conf twinItem).
  - sample_titled.
  - reflexivity.
Defined.

Lemma selectItem_distinct_titles_witness :
  let conf := Some [workItem; funItem; longTitleItem] in
  selectItem "work" 1 conf = Returned (Some longTitleItem).
Proof.
  intros conf. apply (selectItem_distinct_titles "work" 1 conf longTitleItem).
  - sample_titled.
  - apply (bool_decide_unpack _). vm_compute. exact I.
  - reflexivity.
Defined.

Lemma removeCommand_removes_selected_witness :
  let conf := Some [workItem; funItem] in
  exists it,
    removeCommand workSession 0 conf
    = mkRun (removeItem it conf) [Info "Bookmark removed!"] Done
    /\ In it (getItems conf) /\ collection it = "work"
    /\ title it = title workItem
    /\ forall x, In x (getItems (stored (removeCommand workSession 0 conf)))
                 <-> In x (getItems conf) /\ url x <> url it.
Proof.
  intros conf.
  apply (removeCommand_removes_selected workSession "work" 0 conf workItem).
  - reflexivity.
  - sample_titled.
  - reflexivity.
Defined.

Lemma removeCommand_deletes_the_one_picked_witness :
  let conf := Some [workItem; funItem; longTitleItem] in
  removeCommand workSession
    (length (getCollectionItems (collection longTitleItem) (Some [workItem; funItem])))
    conf
  = mkRun (Some ([workItem; funItem] ++ [])) [Info "Bookmark removed!"] Done.
Proof.
  intros conf.
  apply (@removeCommand_deletes_the_one_picked node workSession conf
           [workItem; funItem] [] longTitleItem).
  - sample_wellFormed.
  - reflexivity.
  - sample_titled.
  - apply (bool_decide_unpack _). vm_compute. exact I.
  - reflexivity.
Defined.

Lemma removeCommand_title_clash_witness :
  let conf := Some [workItem; funItem; twinItem] in
  removeCommand workSession (length (@nil Item) + S (length (@nil Item))) conf
  = mkRun (removeItem workItem conf) [Info "Bookmark removed!"] Done
  /\ (url twinItem <> url workItem -> In twinItem (getItems (removeItem workItem conf))).
Proof.
  intros conf.
  apply (removeCommand_title_clash workSession "work" conf [] [] [] workItem twinItem).
  - sample_titled.
  - reflexivity.
  - reflexivity.
  - intros x [].
  - reflexivity.
Defined.

Lemma openCommand_opens_selected_witness :
  let conf := Some [workItem; funItem] in
  exists it,
    openCommand workSession 0 conf = (mkRun conf [] Done, Some (url it))
    /\ In it (getItems conf) /\ collection it = "work"
    /\ title it = title workItem
    /\ (NoDup (map title (getCollectionItems "work" conf)) -> it = workItem).
Proof.
  intros conf.
  apply (openCommand_opens_selected workSession "work" 0 conf workItem).
  - reflexivity.
  - sample_titled.
  - reflexivity.
Defined.

